(** * Mortgage repayment simulator: a shallow embedding and its properties

    The development embeds [minimum_mortgage_repay_time_with_tracking] of
    [mortgage_app.py].  Monetary amounts and rates, Python floats in the
    source, are modelled as exact rationals in canonical form ([Qc], so
    that equal amounts are equal terms); calendar dates follow
    [datetime.date] (proleptic Gregorian calendar, years 1..9999, a
    constructor that raises [ValueError] on an impossible date).  The
    [while] loop is a fuelled fixpoint, one unit of fuel per iteration. *)

From Stdlib Require Import ZArith QArith Qcanon Lia Lqa List Bool.
Import ListNotations.

Local Open Scope Z_scope.

Ltac Zify.zify_post_hook ::= Z.div_mod_to_equations.

(** ** Calendar dates, after [datetime.date] *)

Module PyDate.

Record date : Type := mkdate { year : Z; month : Z; day : Z }.

Definition MINYEAR : Z := 1.
Definition MAXYEAR : Z := 9999.

(** [_is_leap] *)
Definition is_leap (y : Z) : bool :=
  (y mod 4 =? 0) && (negb (y mod 100 =? 0) || (y mod 400 =? 0)).

(** [_DAYS_IN_MONTH], with the placeholder at index 0 *)
Definition DAYS_IN_MONTH : list Z :=
  [-1; 31; 28; 31; 30; 31; 30; 31; 31; 30; 31; 30; 31].

(** [_DAYS_BEFORE_MONTH], with the placeholder at index 0 *)
Definition DAYS_BEFORE_MONTH : list Z :=
  [-1; 0; 31; 59; 90; 120; 151; 181; 212; 243; 273; 304; 334].

(** [_days_in_month] *)
Definition days_in_month (y m : Z) : Z :=
  if (m =? 2) && is_leap y then 29
  else nth (Z.to_nat m) DAYS_IN_MONTH 0.

(** [_days_before_year] *)
Definition days_before_year (y : Z) : Z :=
  let y1 := y - 1 in
  y1 * 365 + y1 / 4 - y1 / 100 + y1 / 400.

(** [_days_before_month] *)
Definition days_before_month (y m : Z) : Z :=
  nth (Z.to_nat m) DAYS_BEFORE_MONTH 0
  + (if (2 <? m) && is_leap y then 1 else 0).

(** [_check_date_fields]: the test that makes the constructor raise. *)
Definition check_date_fields (y m d : Z) : bool :=
  (MINYEAR <=? y) && (y <=? MAXYEAR)
  && (1 <=? m) && (m <=? 12)
  && (1 <=? d) && (d <=? days_in_month y m).

(** [date(y, m, d)]; [None] stands for [ValueError]. *)
Definition new (y m d : Z) : option date :=
  if check_date_fields y m d then Some (mkdate y m d) else None.

(** [d.replace(year=y, month=m)]: builds a new date through the constructor. *)
Definition replace (d : date) (y m : Z) : option date :=
  new y m (day d).

(** [date.toordinal] *)
Definition toordinal (d : date) : Z :=
  days_before_year (year d) + days_before_month (year d) (month d) + day d.

(** [(a - b).days] *)
Definition sub_days (a b : date) : Z := toordinal a - toordinal b.

(** [a < b]: dates compare as the triples (year, month, day). *)
Definition ltb (a b : date) : bool :=
  (year a <? year b)
  || ((year a =? year b)
      && ((month a <? month b)
          || ((month a =? month b) && (day a <? day b)))).

Definition valid (d : date) : Prop :=
  check_date_fields (year d) (month d) (day d) = true.

End PyDate.

Import PyDate.

(** ** Numbers: Python's [min], [max] and [<] on exact rationals *)

Local Open Scope Qc_scope.

(** A literal [n / d]. *)
Definition lit (n : Z) (d : positive) : Qc := Q2Qc (n # d).

(** [x < y] *)
Definition Qclt_bool (x y : Qc) : bool := negb (Qle_bool y x).

(** [min(a, b)]: the first of the smallest arguments. *)
Definition min2 (a b : Qc) : Qc := if Qclt_bool b a then b else a.

(** [min(a, b, c)] scans its arguments from the left. *)
Definition min3 (a b c : Qc) : Qc := min2 (min2 a b) c.

(** [max(a, b)]: the first of the largest arguments. *)
Definition max2 (a b : Qc) : Qc := if Qclt_bool a b then b else a.

(** ** The simulation *)

Record params : Type := mkparams {
  p_current_date : date;
  start_saving : Qc;
  mortgage_amount : Qc;
  monthly_payment : Qc;
  early_repay_percent : Qc;
  n_years_with_allowance : Z;
  mortgage_interest_rate : Qc;
  monthly_revenue : Qc;
  savings_interest_rate : Qc;
  projection_years : Qc
}.

(** One entry of [history]. *)
Record record : Type := mkrecord {
  r_date : date;
  principal_remaining : Qc;
  r_savings : Qc;
  interest_paid : Qc;
  total_paid : Qc
}.

(** The local variables the loop carries from one iteration to the next. *)
Record state : Type := mkstate {
  current_date : date;
  principal : Qc;
  savings : Qc;
  month_count : nat;
  total_interest_paid : Qc;
  history : list record;
  yearly_principal_snapshot : Qc;
  early_repay_used : Qc;
  time_passed_days : Z
}.

(** The values computed by lines 80 to 110 of one iteration, before the
    date is advanced. *)
Record locals : Type := mklocals {
  interest_this_month : Qc;
  actual_payment : Qc;
  principal_after_payment : Qc;
  leftover_after_payment : Qc;
  savings_after_interest : Qc;
  snapshot_for_cap : Qc;
  used_for_cap : Qc;
  early_repay_limit : Qc;
  actual_early_repay : Qc;
  m_leftover : Qc;
  m_principal : Qc;
  m_savings : Qc;
  m_total_interest_paid : Qc;
  m_early_repay_used : Qc
}.

(** How a call ends: it returns, it raises [ValueError] (only the date
    constructor can raise here), or the model ran out of fuel. *)
Inductive outcome (A : Type) : Type :=
| Return (a : A)
| ValueError
| OutOfFuel.
Arguments Return {A} a.
Arguments ValueError {A}.
Arguments OutOfFuel {A}.

Section Simulation.

Variable P : params.
(** [start_no_limit_allowance_date] and [start_date], built before the loop. *)
Variable start_no_limit_allowance_date : date.
Variable start_date : date.

Definition monthly_mortgage_rate : Qc := mortgage_interest_rate P / lit 12 1.
Definition monthly_savings_rate : Qc := savings_interest_rate P / lit 12 1.

Definition snapshot (d : date) (principal savings total_interest_paid : Qc) : record :=
  {| r_date := d;
     principal_remaining := principal;
     r_savings := savings;
     interest_paid := total_interest_paid;
     total_paid := mortgage_amount P - principal + total_interest_paid |}.

(** The state on entry to the loop (lines 57 to 78). *)
Definition init_state : state :=
  let principal := mortgage_amount P in
  let savings := start_saving P in
  let total_interest_paid := 0 in
  {| current_date := p_current_date P;
     principal := principal;
     savings := savings;
     month_count := 0;
     total_interest_paid := total_interest_paid;
     history := [snapshot (p_current_date P) principal savings total_interest_paid];
     yearly_principal_snapshot := principal;
     early_repay_used := 0;
     time_passed_days := sub_days (p_current_date P) start_date |}.

(** Lines 80 to 110. *)
Definition month_body (st : state) : locals :=
  let principal := principal st in
  let savings := savings st in
  let interest_this_month := principal * monthly_mortgage_rate in
  let total_interest_paid := total_interest_paid st + interest_this_month in
  let principal := principal + interest_this_month in
  let savings := savings * (1 + monthly_savings_rate) in
  let savings1 := savings in
  let actual_payment := min2 (monthly_payment P) principal in
  let principal := principal - actual_payment in
  let principal1 := principal in
  let leftover := monthly_revenue P - actual_payment in
  let leftover1 := leftover in
  let reset := (PyDate.month (current_date st) =? 1)%Z
               && (day (current_date st) =? 1)%Z in
  let yearly_principal_snapshot :=
    if reset then principal else yearly_principal_snapshot st in
  let early_repay_used := if reset then 0 else early_repay_used st in
  let early_repay_limit :=
    if ltb (current_date st) start_no_limit_allowance_date
    then yearly_principal_snapshot * early_repay_percent P - early_repay_used
    else principal in
  let actual_early_repay := min3 (leftover + savings) early_repay_limit principal in
  let '(savings, leftover) :=
    if Qclt_bool leftover actual_early_repay
    then (let from_savings := actual_early_repay - leftover in
          (max2 0 (savings - from_savings), 0))
    else (savings, leftover - actual_early_repay) in
  let principal := principal - actual_early_repay in
  let early_repay_used2 := early_repay_used + actual_early_repay in
  let savings := savings + leftover in
  {| interest_this_month := interest_this_month;
     actual_payment := actual_payment;
     principal_after_payment := principal1;
     leftover_after_payment := leftover1;
     savings_after_interest := savings1;
     snapshot_for_cap := yearly_principal_snapshot;
     used_for_cap := early_repay_used;
     early_repay_limit := early_repay_limit;
     actual_early_repay := actual_early_repay;
     m_leftover := leftover;
     m_principal := principal;
     m_savings := savings;
     m_total_interest_paid := total_interest_paid;
     m_early_repay_used := early_repay_used2 |}.

(** Lines 113 to 116: one calendar month later; [None] is [ValueError]. *)
Definition next_month (d : date) : option date :=
  if (PyDate.month d =? 12)%Z
  then replace d (year d + 1) 1
  else replace d (year d) (PyDate.month d + 1).

(** One whole iteration, lines 80 to 125. *)
Definition body (st : state) : option state :=
  let m := month_body st in
  match next_month (current_date st) with
  | None => None
  | Some d =>
    Some {| current_date := d;
            principal := m_principal m;
            savings := m_savings m;
            month_count := S (month_count st);
            total_interest_paid := m_total_interest_paid m;
            history := history st ++
              [snapshot d (m_principal m) (m_savings m) (m_total_interest_paid m)];
            yearly_principal_snapshot := snapshot_for_cap m;
            early_repay_used := m_early_repay_used m;
            time_passed_days := sub_days d start_date |}
  end.

(** Line 79, the [while] test; [1e-5] is read as the decimal it denotes. *)
Definition loop_cond (st : state) : bool :=
  Qclt_bool (lit 1 100000) (principal st)
  || Qclt_bool (lit (time_passed_days st / 365) 1) (projection_years P).

(** Line 126, the test of the [break]. *)
Definition cutoff (st : state) : bool :=
  (365 * 60 <? time_passed_days st)%Z.

(** Lines 79 to 127; each iteration takes one unit of fuel. *)
Fixpoint loop (fuel : nat) (st : state) : outcome state :=
  if loop_cond st then
    match fuel with
    | O => OutOfFuel
    | S fuel' =>
      match body st with
      | None => ValueError
      | Some st' => if cutoff st' then Return st' else loop fuel' st'
      end
    end
  else Return st.

End Simulation.

Definition minimum_mortgage_repay_time_with_tracking (fuel : nat) (P : params)
  : outcome (nat * list record * Qc) :=
  let cd := p_current_date P in
  match new (year cd + n_years_with_allowance P) (PyDate.month cd) (day cd) with
  | None => ValueError
  | Some start_no_limit_allowance_date =>
    match new (year cd) (PyDate.month cd) (day cd) with
    | None => ValueError
    | Some start_date =>
      match loop P start_no_limit_allowance_date start_date fuel
                 (init_state P start_date) with
      | Return st => Return (month_count st, history st, total_interest_paid st)
      | ValueError => ValueError
      | OutOfFuel => OutOfFuel
      end
    end
  end.

(** ** The runs of the loop *)

(** The states a run goes through: the state before the loop, and the
    state each iteration leaves behind.  An iteration starts from a state
    where the [while] test holds and the [break] was not taken. *)
Inductive iterates (P : params) (thr sd : date) : state -> Prop :=
| iterates_init : iterates P thr sd (init_state P sd)
| iterates_step st st' :
    iterates P thr sd st ->
    loop_cond P st = true ->
    cutoff st = false ->
    body P thr sd st = Some st' ->
    iterates P thr sd st'.

(** The preconditions of the simulator: amounts and rates are not
    negative, the cap is a fraction, the two horizons are not negative. *)
Record valid_params (P : params) : Prop := {
  vp_start_saving : 0 <= start_saving P;
  vp_mortgage_amount : 0 <= mortgage_amount P;
  vp_monthly_payment : 0 <= monthly_payment P;
  vp_monthly_revenue : 0 <= monthly_revenue P;
  vp_mortgage_interest_rate : 0 <= mortgage_interest_rate P;
  vp_savings_interest_rate : 0 <= savings_interest_rate P;
  vp_early_repay_percent_lo : 0 <= early_repay_percent P;
  vp_early_repay_percent_hi : early_repay_percent P <= 1;
  vp_n_years_with_allowance : (0 <= n_years_with_allowance P)%Z;
  vp_projection_years : 0 <= projection_years P
}.

(** The month that starts at [st] falls in the capped window. *)
Definition in_window (thr : date) (st : state) : Prop :=
  ltb (current_date st) thr = true.


(** Scenario 1 of the specification: no early repayment. *)
Definition scenario1 (cd : date) (saving : Qc) : params :=
  {| p_current_date := cd;
     start_saving := saving;
     mortgage_amount := lit 120000 1;
     monthly_payment := lit 1000 1;
     early_repay_percent := 0;
     n_years_with_allowance := 100;
     mortgage_interest_rate := 0;
     monthly_revenue := lit 1000 1;
     savings_interest_rate := 0;
     projection_years := 0 |}.

(** Scenario 2 of the specification: unlimited early repayment from the
    first month. *)
Definition scenario2 (cd : date) (saving savings_rate projection : Qc) : params :=
  {| p_current_date := cd;
     start_saving := saving;
     mortgage_amount := lit 10000 1;
     monthly_payment := lit 500 1;
     early_repay_percent := 1;
     n_years_with_allowance := 0;
     mortgage_interest_rate := 0;
     monthly_revenue := lit 10500 1;
     savings_interest_rate := savings_rate;
     projection_years := projection |}.

(** A small loan, used to exercise the statements below: 1000 borrowed on
    1 December 2025 at 6%, 400 a month out of 600 of revenue, 100 saved at
    3%, early repayment capped at a tenth of the principal for one year. *)
Definition small_loan : params :=
  {| p_current_date := mkdate 2025 12 1;
     start_saving := lit 100 1;
     mortgage_amount := lit 1000 1;
     monthly_payment := lit 400 1;
     early_repay_percent := lit 1 10;
     n_years_with_allowance := 1;
     mortgage_interest_rate := lit 6 100;
     monthly_revenue := lit 600 1;
     savings_interest_rate := lit 3 100;
     projection_years := 0 |}.

(** The same loan taken out on 31 January 2025. *)
Definition loan_from_31st : params :=
  {| p_current_date := mkdate 2025 1 31;
     start_saving := start_saving small_loan;
     mortgage_amount := mortgage_amount small_loan;
     monthly_payment := monthly_payment small_loan;
     early_repay_percent := early_repay_percent small_loan;
     n_years_with_allowance := n_years_with_allowance small_loan;
     mortgage_interest_rate := mortgage_interest_rate small_loan;
     monthly_revenue := monthly_revenue small_loan;
     savings_interest_rate := savings_interest_rate small_loan;
     projection_years := projection_years small_loan |}.

(** Start dates for which no date built during a run can be refused: a day
    every month has, and room for sixty years and for the allowance window
    below [MAXYEAR]. *)
Record safe_start (P : params) : Prop := {
  ss_valid : valid (p_current_date P);
  ss_day : (day (p_current_date P) <= 28)%Z;
  ss_sixty : (year (p_current_date P) + 60 <= MAXYEAR)%Z;
  ss_allowance :
    (MINYEAR <= year (p_current_date P) + n_years_with_allowance P <= MAXYEAR)%Z
}.


(** A loan on which nothing is ever paid: the principal never moves. *)
Definition stalled_loan : params :=
  {| p_current_date := mkdate 2025 8 1;
     start_saving := 0;
     mortgage_amount := lit 1000 1;
     monthly_payment := 0;
     early_repay_percent := 0;
     n_years_with_allowance := 0;
     mortgage_interest_rate := 0;
     monthly_revenue := 0;
     savings_interest_rate := 0;
     projection_years := 0 |}.

(** A loan taken out on 29 February 2024 with a one-year window. *)
Definition leap_day_loan : params :=
  {| p_current_date := mkdate 2024 2 29;
     start_saving := start_saving small_loan;
     mortgage_amount := mortgage_amount small_loan;
     monthly_payment := monthly_payment small_loan;
     early_repay_percent := early_repay_percent small_loan;
     n_years_with_allowance := 1;
     mortgage_interest_rate := mortgage_interest_rate small_loan;
     monthly_revenue := monthly_revenue small_loan;
     savings_interest_rate := savings_interest_rate small_loan;
     projection_years := projection_years small_loan |}.

(** A count of months as an amount. *)
Definition nq (k : nat) : Qc := lit (Z.of_nat k) 1.


(** ** Invariants and specifications used below *)

(** What the state must satisfy on entry to an iteration. *)
Definition month_pre (P : params) (thr : date) (st : state) : Prop :=
  0 <= principal st /\ 0 <= savings st /\
  (in_window thr st ->
   early_repay_used st <= yearly_principal_snapshot st * early_repay_percent P).

(** What one month of arithmetic guarantees. *)
Record month_post (m : locals) : Prop := {
  mp_interest : 0 <= interest_this_month m;
  mp_payment : 0 <= actual_payment m;
  mp_after_payment : 0 <= principal_after_payment m;
  mp_savings_interest : 0 <= savings_after_interest m;
  mp_limit : 0 <= early_repay_limit m;
  mp_repay_limit : actual_early_repay m <= early_repay_limit m;
  mp_repay_principal : actual_early_repay m <= principal_after_payment m;
  mp_paid : 0 <= actual_payment m + actual_early_repay m;
  mp_principal : 0 <= m_principal m;
  mp_savings : 0 <= m_savings m
}.


(** A record whose [total_paid] is the principal repaid plus the interest. *)
Definition conserved (P : params) (r : record) : Prop :=
  total_paid r = mortgage_amount P - principal_remaining r + interest_paid r.

(** A record with no negative balance. *)
Definition nonneg_record (r : record) : Prop :=
  0 <= principal_remaining r /\ 0 <= r_savings r.

(** Where the calendar stands after [month_count] iterations. *)
Record calendar_inv (P : params) (st : state) : Prop := {
  ci_months :
    (12 * year (current_date st) + PyDate.month (current_date st)
     = 12 * year (p_current_date P) + PyDate.month (p_current_date P)
       + Z.of_nat (month_count st))%Z;
  ci_day : day (current_date st) = day (p_current_date P);
  ci_valid : valid (current_date st);
  ci_time_passed :
    time_passed_days st = sub_days (current_date st) (p_current_date P)
}.

(** The values of one iteration, each in terms of the state on entry and
    of the values computed before it. *)
Record month_spec (P : params) (thr : date) (st : state) (m : locals) : Prop := {
  ms_interest : interest_this_month m = principal st * monthly_mortgage_rate P;
  ms_total_interest :
    m_total_interest_paid m = total_interest_paid st + interest_this_month m;
  ms_savings_interest :
    savings_after_interest m = savings st * (1 + monthly_savings_rate P);
  ms_payment :
    actual_payment m
    = min2 (monthly_payment P) (principal st + interest_this_month m);
  ms_after_payment :
    principal_after_payment m
    = principal st + interest_this_month m - actual_payment m;
  ms_leftover : leftover_after_payment m = monthly_revenue P - actual_payment m;
  ms_snapshot :
    snapshot_for_cap m
    = if (PyDate.month (current_date st) =? 1)%Z && (day (current_date st) =? 1)%Z
      then principal_after_payment m else yearly_principal_snapshot st;
  ms_used :
    used_for_cap m
    = if (PyDate.month (current_date st) =? 1)%Z && (day (current_date st) =? 1)%Z
      then 0 else early_repay_used st;
  ms_limit :
    early_repay_limit m
    = if ltb (current_date st) thr
      then snapshot_for_cap m * early_repay_percent P - used_for_cap m
      else principal_after_payment m;
  ms_early_repay :
    actual_early_repay m
    = min3 (leftover_after_payment m + savings_after_interest m)
           (early_repay_limit m) (principal_after_payment m);
  ms_final_savings :
    m_savings m
    = if Qclt_bool (leftover_after_payment m) (actual_early_repay m)
      then max2 0 (savings_after_interest m
                   - (actual_early_repay m - leftover_after_payment m)) + 0
      else savings_after_interest m
           + (leftover_after_payment m - actual_early_repay m);
  ms_final_principal :
    m_principal m = principal_after_payment m - actual_early_repay m;
  ms_final_used :
    m_early_repay_used m = used_for_cap m + actual_early_repay m
}.

(** ** The dashboard around the simulator *)

(** What the sidebar widgets hand to the script (lines 135 to 184). *)
Record ui_inputs : Type := mkui {
  start_date_input : date;
  mortgage_amount_ : Qc;
  monthly_payment_ : Qc;
  monthly_revenue_ : Qc;
  start_saving_ : Qc;
  early_repay_enabled : bool;
  unlimited_repay_from_start : bool;
  early_repay_percent_slider : Qc;
  n_years_allowance_slider : Z;
  mortgage_interest_rate_slider : Qc;
  savings_interest_rate_slider : Qc;
  projection_years_ : Z
}.

(** Lines 144 to 198: the arguments of the call; [None] is [st.stop()],
    taken when the chosen day is not the first of a month. *)
Definition ui_params (u : ui_inputs) : option params :=
  if negb (day (start_date_input u) =? 1)%Z then None
  else
    let '(early_repay_percent_, n_years_allowance_) :=
      if negb (early_repay_enabled u) then (0, 100%Z)
      else if unlimited_repay_from_start u then (1, 0%Z)
      else (early_repay_percent_slider u, n_years_allowance_slider u) in
    Some {| p_current_date := start_date_input u;
            start_saving := start_saving_ u;
            mortgage_amount := mortgage_amount_ u;
            monthly_payment := monthly_payment_ u;
            early_repay_percent := early_repay_percent_;
            n_years_with_allowance := n_years_allowance_;
            mortgage_interest_rate := mortgage_interest_rate_slider u / lit 100 1;
            monthly_revenue := monthly_revenue_ u;
            savings_interest_rate := savings_interest_rate_slider u / lit 100 1;
            projection_years := lit (projection_years_ u) 1 |}.

(** The bounds the slider widgets are created with. *)
Record slider_ranges (u : ui_inputs) : Prop := {
  sr_percent : 0 <= early_repay_percent_slider u <= 1;
  sr_years : (0 <= n_years_allowance_slider u <= 20)%Z;
  sr_mortgage_rate : 0 <= mortgage_interest_rate_slider u <= lit 10 1;
  sr_savings_rate : 0 <= savings_interest_rate_slider u <= lit 10 1;
  sr_projection : (0 <= projection_years_ u <= 50)%Z
}.

(** Lines 202 and 228: [len([p for p in principals if p > 0])]. *)
Definition repay_months (h : list record) : nat :=
  length (filter (fun p => Qclt_bool 0 p) (map principal_remaining h)).

(** Line 229: [divmod(repay_months, 12)]. *)
Definition duration (h : list record) : nat * nat :=
  (repay_months h / 12, repay_months h mod 12)%nat.

(** Line 233: [savings_vals[-1]]; [None] is [IndexError]. *)
Definition final_savings (h : list record) : option Qc :=
  match rev (map r_savings h) with
  | [] => None
  | s :: _ => Some s
  end.

(** [R] relates each record to the next one. *)
Definition adjacent (R : record -> record -> Prop) (h : list record) : Prop :=
  forall i r r',
    nth_error h i = Some r -> nth_error h (S i) = Some r' -> R r r'.

(** A household with 3000 of revenue and a payment of 850, as the
    dashboard proposes it, early repayment switched off. *)
Definition default_inputs : ui_inputs :=
  {| start_date_input := mkdate 2025 8 1;
     mortgage_amount_ := lit 125000 1;
     monthly_payment_ := lit 850 1;
     monthly_revenue_ := lit 3000 1;
     start_saving_ := lit 5000 1;
     early_repay_enabled := false;
     unlimited_repay_from_start := false;
     early_repay_percent_slider := lit 1 10;
     n_years_allowance_slider := 4;
     mortgage_interest_rate_slider := lit 492 100;
     savings_interest_rate_slider := lit 3 1;
     projection_years_ := 25 |}.

(** * Supporting lemmas *)

(** ** The model at work *)

(** The small loan is repaid in three months; the second month starts on
    1 January, resets the snapshot to 107.525 and repays a tenth of it. *)
Example small_loan_run :
  match minimum_mortgage_repay_time_with_tracking 10 small_loan with
  | Return (mc, h, t) =>
      mc = 3%nat /\
      map (fun r => this (principal_remaining r)) h
        = [1000; 505; 38709 # 400; 0]%Q /\
      map (fun r => this (r_savings r)) h
        = [100; 801 # 4; 623997 # 1600; 22879149 # 25600]%Q /\
      map r_date h
        = [mkdate 2025 12 1; mkdate 2026 1 1; mkdate 2026 2 1; mkdate 2026 3 1] /\
      this t = (640709 # 80000)%Q
  | _ => False
  end.
Proof. vm_compute. repeat split. Qed.

(** With too little fuel the model says so. *)
Example small_loan_out_of_fuel :
  minimum_mortgage_repay_time_with_tracking 2 small_loan = OutOfFuel.
Proof. vm_compute. reflexivity. Qed.

(** From 29 February 2024 the date one year later does not exist, and the
    call raises before the loop. *)
Example leap_day_loan_raises (fuel : nat) :
  minimum_mortgage_repay_time_with_tracking fuel leap_day_loan = ValueError.
Proof. reflexivity. Qed.

(** The stalled loan runs for the full sixty years: 720 iterations, and
    719 units of fuel are not enough. *)
Example stalled_loan_run :
  match minimum_mortgage_repay_time_with_tracking 720 stalled_loan with
  | Return (mc, h, _) => mc = 720%nat /\ length h = 721%nat
  | _ => False
  end /\
  minimum_mortgage_repay_time_with_tracking 719 stalled_loan = OutOfFuel.
Proof. vm_compute. repeat split. Qed.

(** ** Arithmetic on canonical rationals

    Orders on [Qc] are those of the underlying fractions, so goals are moved
    to [Q], where linear arithmetic decides them. *)

Lemma this_plus (a b : Qc) : (this (a + b) == this a + this b)%Q.
Proof. unfold Qcplus, Q2Qc; cbn [this]. apply Qred_correct. Qed.

Lemma this_mult (a b : Qc) : (this (a * b) == this a * this b)%Q.
Proof. unfold Qcmult, Q2Qc; cbn [this]. apply Qred_correct. Qed.

Lemma this_opp (a : Qc) : (this (- a) == - this a)%Q.
Proof. unfold Qcopp, Q2Qc; cbn [this]. apply Qred_correct. Qed.

Lemma this_minus (a b : Qc) : (this (a - b) == this a - this b)%Q.
Proof. unfold Qcminus. rewrite this_plus, this_opp. reflexivity. Qed.

Lemma this_inv (a : Qc) : (this (/ a) == / this a)%Q.
Proof. unfold Qcinv, Q2Qc; cbn [this]. apply Qred_correct. Qed.

Lemma this_div (a b : Qc) : (this (a / b) == this a / this b)%Q.
Proof. unfold Qcdiv. rewrite this_mult, this_inv. reflexivity. Qed.

Lemma this_lit (n : Z) (d : positive) : (this (lit n d) == n # d)%Q.
Proof. unfold lit, Q2Qc; cbn [this]. apply Qred_correct. Qed.

Lemma this_Q2Qc (q : Q) : (this (Q2Qc q) == q)%Q.
Proof. cbn [this Q2Qc]. apply Qred_correct. Qed.

Lemma Qc_eq_this (a b : Qc) : a = b -> (this a == this b)%Q.
Proof. intros ->. reflexivity. Qed.

Ltac qc_push_in H :=
  repeat first
    [ rewrite this_plus in H | rewrite this_minus in H | rewrite this_mult in H
    | rewrite this_opp in H | rewrite this_div in H | rewrite this_lit in H
    | rewrite this_Q2Qc in H ].

Ltac qc_push_goal :=
  repeat first
    [ rewrite this_plus | rewrite this_minus | rewrite this_mult
    | rewrite this_opp | rewrite this_div | rewrite this_lit
    | rewrite this_Q2Qc ].

(** Moves a goal about [Qc] and its hypotheses to [Q]. *)
Ltac qc2q :=
  repeat match goal with
  | H : @eq Qc _ _ |- _ => apply Qc_eq_this in H
  | |- @eq Qc _ _ => apply Qc_is_canon
  end;
  unfold Qcle, Qclt in *;
  repeat match goal with
  | H : (_ <= _)%Q |- _ => progress qc_push_in H
  | H : (_ < _)%Q |- _ => progress qc_push_in H
  | H : (_ == _)%Q |- _ => progress qc_push_in H
  end;
  qc_push_goal.

Ltac qc_lra := qc2q; lra.

Lemma Qclt_bool_true (x y : Qc) : Qclt_bool x y = true -> x < y.
Proof.
  unfold Qclt_bool, Qclt. intros H. apply negb_true_iff in H.
  apply Qnot_le_lt. intros Hle. apply Qle_bool_iff in Hle. congruence.
Qed.

Lemma Qclt_bool_false (x y : Qc) : Qclt_bool x y = false -> y <= x.
Proof.
  unfold Qclt_bool, Qcle. intros H. apply negb_false_iff in H.
  now apply Qle_bool_iff.
Qed.

Lemma Qclt_bool_spec (x y : Qc) :
  (Qclt_bool x y = true /\ x < y) \/ (Qclt_bool x y = false /\ y <= x).
Proof.
  destruct (Qclt_bool x y) eqn:E.
  - left. split; [reflexivity | now apply Qclt_bool_true].
  - right. split; [reflexivity | now apply Qclt_bool_false].
Qed.

Lemma min2_spec (a b : Qc) :
  (b < a /\ min2 a b = b) \/ (a <= b /\ min2 a b = a).
Proof.
  unfold min2. destruct (Qclt_bool_spec b a) as [[-> H] | [-> H]]; auto.
Qed.

Lemma max2_spec (a b : Qc) :
  (a < b /\ max2 a b = b) \/ (b <= a /\ max2 a b = a).
Proof.
  unfold max2. destruct (Qclt_bool_spec a b) as [[-> H] | [-> H]]; auto.
Qed.

Lemma min3_spec (a b c : Qc) :
  (min3 a b c = a /\ a <= b /\ a <= c)
  \/ (min3 a b c = b /\ b < a /\ b <= c)
  \/ (min3 a b c = c /\ c < a /\ c < b).
Proof.
  unfold min3.
  destruct (min2_spec a b) as [[H1 ->] | [H1 ->]];
    [ destruct (min2_spec b c) as [[H2 ->] | [H2 ->]]
    | destruct (min2_spec a c) as [[H2 ->] | [H2 ->]] ].
  - right; right. repeat split; trivial. qc_lra.
  - right; left. auto.
  - right; right. repeat split; trivial. qc_lra.
  - left. auto.
Qed.

Lemma Qc_mult_nonneg (a b : Qc) : 0 <= a -> 0 <= b -> 0 <= a * b.
Proof. intros. qc2q. apply Qmult_le_0_compat; lra. Qed.

Lemma Qc_div12_nonneg (r : Qc) : 0 <= r -> 0 <= r / lit 12 1.
Proof. intros. qc2q. apply Qle_shift_div_l; lra. Qed.

Lemma lit_nonneg (z : Z) (d : positive) : (0 <= z)%Z -> 0 <= lit z d.
Proof.
  intros Hz. unfold Qcle. rewrite this_lit. unfold Qle; cbn. lia.
Qed.

Lemma zero_rate : 0 / lit 12 1 = 0.
Proof. apply Qc_is_canon. reflexivity. Qed.

Lemma Qclt_bool_lit_0 (z : Z) : (0 <= z)%Z -> Qclt_bool (lit z 1) 0 = false.
Proof.
  intros Hz. destruct (Qclt_bool_spec (lit z 1) 0) as [[_ H] | [E _]]; trivial.
  pose proof (lit_nonneg z 1 Hz). exfalso. qc_lra.
Qed.



Lemma nq_nonneg (k : nat) : 0 <= nq k.
Proof. apply lit_nonneg. lia. Qed.

(** ** One month of arithmetic *)

Lemma month_body_spec (P : params) (thr : date) (st : state) :
  month_spec P thr st (month_body P thr st).
Proof.
  unfold month_body.
  match goal with
  | |- context [if Qclt_bool ?a ?b then (_, _) else _] =>
    destruct (Qclt_bool a b) eqn:E
  end; constructor;
    cbn [interest_this_month actual_payment principal_after_payment
         leftover_after_payment savings_after_interest snapshot_for_cap
         used_for_cap early_repay_limit actual_early_repay m_leftover
         m_principal m_savings m_total_interest_paid m_early_repay_used];
    rewrite ?E; reflexivity.
Qed.

Lemma month_body_cap (P : params) (thr : date) (st : state) :
  in_window thr st ->
  let m := month_body P thr st in
  early_repay_limit m
    = snapshot_for_cap m * early_repay_percent P - used_for_cap m /\
  actual_early_repay m <= early_repay_limit m /\
  m_early_repay_used m <= snapshot_for_cap m * early_repay_percent P.
Proof.
  unfold in_window, month_body. intros ->.
  match goal with
  | |- context [if Qclt_bool ?a ?b then (_, _) else _] => destruct (Qclt_bool a b)
  end;
    cbn [early_repay_limit snapshot_for_cap used_for_cap actual_early_repay
         m_early_repay_used];
    match goal with
    | |- context [min3 ?a ?b ?c] =>
      destruct (min3_spec a b c) as [(E & H1 & H2) | [(E & H1 & H2) | (E & H1 & H2)]];
        rewrite E; clear E;
        generalize dependent a; generalize dependent c
    end;
    intros; (split; [ reflexivity | split; qc_lra ]).
Qed.

(** Past the window the limit is the principal itself. *)
Lemma unlimited_month (P : params) (thr : date) (st : state) :
  ltb (current_date st) thr = false ->
  let m := month_body P thr st in
  early_repay_limit m = principal_after_payment m /\
  (principal_after_payment m
     <= leftover_after_payment m + savings_after_interest m ->
   actual_early_repay m = principal_after_payment m /\ m_principal m = 0).
Proof.
  intros Hw m.
  destruct (month_body_spec P thr st) as [_ _ _ _ _ _ _ _ Elim Eaer _ Efp _].
  fold m in Elim, Eaer, Efp. rewrite Hw in Elim.
  split; [ exact Elim | ]. intros Hle.
  assert (Ea : actual_early_repay m = principal_after_payment m).
  { rewrite Eaer, Elim.
    destruct (min3_spec (leftover_after_payment m + savings_after_interest m)
                (principal_after_payment m) (principal_after_payment m))
      as [(E & H1 & _) | [(E & _) | (E & _)]]; rewrite E; trivial.
    clear - H1 Hle. qc_lra. }
  split; [ exact Ea | ]. rewrite Efp, Ea. clear. qc_lra.
Qed.

Section MonthFacts.

Variable P : params.
Variable thr : date.
Hypothesis HP : valid_params P.

Lemma monthly_mortgage_rate_nonneg : 0 <= monthly_mortgage_rate P.
Proof. apply Qc_div12_nonneg, HP. Qed.

Lemma savings_growth_nonneg : 0 <= 1 + monthly_savings_rate P.
Proof.
  pose proof (Qc_div12_nonneg _ (vp_savings_interest_rate _ HP)) as H.
  unfold monthly_savings_rate. qc_lra.
Qed.

Lemma month_body_post (st : state) :
  month_pre P thr st -> month_post (month_body P thr st).
Proof.
  intros (Hp & Hs & Hw).
  pose proof (Qc_mult_nonneg _ _ Hp monthly_mortgage_rate_nonneg) as Hi.
  pose proof (Qc_mult_nonneg _ _ Hs savings_growth_nonneg) as Hg.
  pose proof (vp_monthly_payment _ HP) as Hmp.
  pose proof (vp_monthly_revenue _ HP) as Hrev.
  pose proof (vp_early_repay_percent_lo _ HP) as Hcap.
  unfold in_window in Hw. unfold month_body.
  set (i := principal st * monthly_mortgage_rate P) in *.
  set (g := savings st * (1 + monthly_savings_rate P)) in *.
  set (ap := min2 (monthly_payment P) (principal st + i)).
  assert (Hap : 0 <= ap /\ ap <= principal st + i).
  { subst ap. destruct (min2_spec (monthly_payment P) (principal st + i))
      as [[H ->] | [H ->]]; split; qc_lra. }
  destruct Hap as [Hap0 Hap1].
  set (pap := principal st + i - ap).
  assert (Hpap : 0 <= pap) by (subst pap; qc_lra).
  set (reset := ((PyDate.month (current_date st) =? 1)%Z
                 && (day (current_date st) =? 1)%Z)%bool).
  set (snap := if reset then pap else yearly_principal_snapshot st).
  set (used := if reset then 0 else early_repay_used st).
  set (lim := if ltb (current_date st) thr
              then snap * early_repay_percent P - used else pap).
  assert (Hlim : 0 <= lim).
  { subst lim. destruct (ltb (current_date st) thr); [ | exact Hpap ].
    subst snap used. destruct reset.
    - pose proof (Qc_mult_nonneg _ _ Hpap Hcap). qc_lra.
    - specialize (Hw eq_refl). qc_lra. }
  clearbody lim. clear Hw.
  set (lo := monthly_revenue P - ap).
  set (aer := min3 (lo + g) lim pap).
  destruct (min3_spec (lo + g) lim pap)
    as [(E & H1 & H2) | [(E & H1 & H2) | (E & H1 & H2)]];
    fold aer in E;
    (destruct (Qclt_bool_spec lo aer) as [[Eb Hb] | [Eb Hb]]; rewrite Eb;
     [ destruct (max2_spec 0 (g - (aer - lo))) as [[Hm Em] | [Hm Em]];
       rewrite Em; clear Em
     | ]);
    subst lo pap; clearbody aer ap i g; subst aer; clear Eb; qc2q;
    split;
    cbn [interest_this_month actual_payment principal_after_payment
         savings_after_interest early_repay_limit actual_early_repay
         m_principal m_savings];
    unfold Qcle; qc_push_goal; lra.
Qed.

End MonthFacts.

(** ** Calendar facts *)

Lemma new_Some (y m d : Z) (x : date) :
  new y m d = Some x -> x = mkdate y m d /\ check_date_fields y m d = true.
Proof.
  unfold new. destruct (check_date_fields y m d); [ | discriminate ].
  intros [= <-]. auto.
Qed.

Lemma new_valid (d : date) :
  valid d -> new (year d) (PyDate.month d) (day d) = Some d.
Proof. unfold valid, new. intros ->. now destruct d. Qed.

Lemma check_date_fields_range (y m d : Z) :
  check_date_fields y m d = true ->
  (1 <= y <= 9999 /\ 1 <= m <= 12 /\ 1 <= d <= days_in_month y m)%Z.
Proof.
  unfold check_date_fields, MINYEAR, MAXYEAR.
  rewrite !andb_true_iff, !Z.leb_le. lia.
Qed.

Lemma ltb_lt (a b : date) :
  ltb a b = true <->
  (year a < year b
   \/ (year a = year b
       /\ (PyDate.month a < PyDate.month b
           \/ (PyDate.month a = PyDate.month b /\ day a < day b))))%Z.
Proof.
  unfold ltb.
  rewrite !orb_true_iff, !andb_true_iff, !orb_true_iff, !andb_true_iff,
    !Z.ltb_lt, !Z.eqb_eq.
  reflexivity.
Qed.

Lemma next_month_Some (d d' : date) :
  next_month d = Some d' ->
  valid d' /\ day d' = day d /\
  ((PyDate.month d = 12 /\ year d' = year d + 1 /\ PyDate.month d' = 1)
   \/ (PyDate.month d <> 12 /\ year d' = year d
       /\ PyDate.month d' = PyDate.month d + 1))%Z.
Proof.
  unfold next_month, replace, valid.
  destruct (PyDate.month d =? 12)%Z eqn:E; intros H;
    apply new_Some in H; destruct H as [-> H]; cbn [year PyDate.month day];
    (split; [ exact H | split; [ reflexivity | ] ]).
  - apply Z.eqb_eq in E. lia.
  - apply Z.eqb_neq in E. lia.
Qed.

(** Dates only move forward: a month that has left the capped window
    stays out of it. *)
Lemma next_month_window (thr d d' : date) :
  next_month d = Some d' -> ltb d' thr = true -> ltb d thr = true.
Proof.
  intros H. pose proof (next_month_Some _ _ H) as (_ & Hd & Hi).
  rewrite !ltb_lt. lia.
Qed.

Lemma ltb_irrefl (d : date) : ltb d d = false.
Proof.
  destruct (ltb d d) eqn:E; trivial. apply ltb_lt in E. lia.
Qed.

Lemma sub_days_diag (d : date) : sub_days d d = 0%Z.
Proof. unfold sub_days. apply Z.sub_diag. Qed.

Lemma days_in_month_ge_28 (y m : Z) :
  (1 <= m <= 12)%Z -> (28 <= days_in_month y m)%Z.
Proof.
  intros Hm. unfold days_in_month.
  destruct ((m =? 2)%Z && is_leap y); [ lia | ].
  assert (Hcases : (m = 1 \/ m = 2 \/ m = 3 \/ m = 4 \/ m = 5 \/ m = 6 \/ m = 7
           \/ m = 8 \/ m = 9 \/ m = 10 \/ m = 11 \/ m = 12)%Z) by lia.
  repeat (destruct Hcases as [Hcases | Hcases];
          [ rewrite Hcases; vm_compute; discriminate | ]).
  rewrite Hcases. vm_compute. discriminate.
Qed.

Lemma days_in_month_le_31 (y m : Z) : (days_in_month y m <= 31)%Z.
Proof.
  unfold days_in_month.
  destruct ((m =? 2)%Z && is_leap y); [ lia | ].
  destruct (Z.to_nat m) as [ | n ]; [ cbn; lia | ].
  do 12 (destruct n as [ | n ]; [ cbn; lia | ]).
  cbn. destruct n; lia.
Qed.

Lemma check_date_fields_day_28 (y m d : Z) :
  (1 <= y <= 9999)%Z -> (1 <= m <= 12)%Z -> (1 <= d <= 28)%Z ->
  check_date_fields y m d = true.
Proof.
  intros Hy Hm Hd. pose proof (days_in_month_ge_28 y m Hm).
  unfold check_date_fields, MINYEAR, MAXYEAR.
  rewrite !andb_true_iff, !Z.leb_le. lia.
Qed.

Lemma days_before_month_same (y y' m : Z) :
  (-1 <= days_before_month y' m - days_before_month y m <= 1)%Z.
Proof.
  unfold days_before_month.
  destruct ((2 <? m)%Z && is_leap y'), ((2 <? m)%Z && is_leap y); lia.
Qed.

(** Sixty calendar years hold more than [365 * 60] days. *)
Lemma sixty_years_of_days (y : Z) :
  (365 * 60 + 14 <= days_before_year (y + 60) - days_before_year y)%Z.
Proof. unfold days_before_year. lia. Qed.

Lemma sub_days_sixty_years (d d' : date) :
  year d' = (year d + 60)%Z -> PyDate.month d' = PyDate.month d ->
  day d' = day d ->
  (365 * 60 < sub_days d' d)%Z.
Proof.
  intros Hy Hm Hd. unfold sub_days, toordinal. rewrite Hy, Hm, Hd.
  pose proof (sixty_years_of_days (year d)).
  pose proof (days_before_month_same (year d) (year d + 60) (PyDate.month d)).
  lia.
Qed.

Lemma year_length (y : Z) :
  (days_before_year (y + 1) - days_before_year y
   = 365 + (if is_leap y then 1 else 0))%Z.
Proof.
  unfold days_before_year, is_leap.
  destruct (Z.eqb_spec (y mod 4) 0), (Z.eqb_spec (y mod 100) 0),
    (Z.eqb_spec (y mod 400) 0); cbn [andb orb negb]; lia.
Qed.

Lemma days_before_month_step (y m : Z) :
  (1 <= m <= 11)%Z ->
  (days_before_month y (m + 1) - days_before_month y m = days_in_month y m)%Z.
Proof.
  intros Hm. unfold days_before_month, days_in_month.
  generalize (is_leap y). intros leap.
  assert (Hc : (m = 1 \/ m = 2 \/ m = 3 \/ m = 4 \/ m = 5 \/ m = 6 \/ m = 7
                \/ m = 8 \/ m = 9 \/ m = 10 \/ m = 11)%Z) by lia.
  destruct Hc as [H|[H|[H|[H|[H|[H|[H|[H|[H|[H|H]]]]]]]]]]; rewrite H;
    destruct leap; reflexivity.
Qed.

Lemma days_before_month_december (y : Z) :
  (days_before_month (y + 1) 1 - days_before_month y 12
   = days_in_month y 12 - 365 - (if is_leap y then 1 else 0))%Z.
Proof.
  unfold days_before_month, days_in_month.
  generalize (is_leap y). intros leap. destruct leap; reflexivity.
Qed.

(** A month advance moves the ordinal by the length of the month left. *)
Lemma next_month_days (d d' : date) :
  valid d -> next_month d = Some d' ->
  sub_days d' d = days_in_month (year d) (PyDate.month d).
Proof.
  intros Hv Hn. apply check_date_fields_range in Hv. destruct Hv as (_ & Hm & _).
  apply next_month_Some in Hn. destruct Hn as (_ & Hd & Hcase).
  unfold sub_days, toordinal. rewrite Hd.
  destruct Hcase as [(E & -> & ->) | (E & -> & ->)].
  - pose proof (year_length (year d)) as Hy.
    pose proof (days_before_month_december (year d)) as Hdec.
    rewrite E. lia.
  - pose proof (days_before_month_step (year d) (PyDate.month d)). lia.
Qed.

(** ** Runs and their invariants *)

Lemma Some_inj {A : Type} (a b : A) : Some a = Some b -> a = b.
Proof. intros H. now injection H. Qed.

Lemma body_Some (P : params) (thr sd : date) (st st' : state) :
  body P thr sd st = Some st' ->
  exists d, next_month (current_date st) = Some d /\
    st' = {| current_date := d;
             principal := m_principal (month_body P thr st);
             savings := m_savings (month_body P thr st);
             month_count := S (month_count st);
             total_interest_paid := m_total_interest_paid (month_body P thr st);
             history := history st ++
               [snapshot P d (m_principal (month_body P thr st))
                  (m_savings (month_body P thr st))
                  (m_total_interest_paid (month_body P thr st))];
             yearly_principal_snapshot := snapshot_for_cap (month_body P thr st);
             early_repay_used := m_early_repay_used (month_body P thr st);
             time_passed_days := sub_days d sd |}.
Proof.
  unfold body. destruct (next_month (current_date st)) as [d | ];
    [ | discriminate ].
  intros H. exists d. split; [ reflexivity | ].
  apply (f_equal (fun o => match o with Some x => x | None => st' end)) in H.
  symmetry. exact H.
Qed.

(** A property of the states of a run is an invariant when the state
    before the loop has it and every iteration keeps it. *)
Lemma iterates_ind_inv (P : params) (thr sd : date) (I : state -> Prop) :
  I (init_state P sd) ->
  (forall st st',
     iterates P thr sd st -> I st -> body P thr sd st = Some st' -> I st') ->
  forall st, iterates P thr sd st -> I st.
Proof.
  intros H0 Hstep st Hit. induction Hit; eauto.
Qed.

(** Starts a proof that every state of a run has some property. *)
Ltac run_induction :=
  match goal with
  | |- iterates _ _ _ ?st -> _ =>
    let H := fresh in
    intros H; pattern st; revert H; revert st; apply iterates_ind_inv
  end.

(** The state a run returns is one of its states. *)
Lemma loop_iterates (P : params) (thr sd : date) (fuel : nat) :
  forall st st',
    iterates P thr sd st -> cutoff st = false ->
    loop P thr sd fuel st = Return st' ->
    iterates P thr sd st'.
Proof.
  induction fuel as [ | fuel IH ]; intros st st' Hit Hc; cbn [loop];
    destruct (loop_cond P st) eqn:Hcond; try discriminate;
    try (intros [= <-]; assumption).
  destruct (body P thr sd st) as [st1 | ] eqn:Hb; [ | discriminate ].
  assert (Hit1 : iterates P thr sd st1) by (econstructor; eassumption).
  destruct (cutoff st1) eqn:Hc1.
  - intros [= <-]. assumption.
  - intros H. now apply (IH st1).
Qed.

Lemma cutoff_init (P : params) (sd : date) :
  p_current_date P = sd -> cutoff (init_state P sd) = false.
Proof.
  intros <-. unfold cutoff, init_state; cbn [time_passed_days].
  now rewrite sub_days_diag.
Qed.

(** What a returning call went through. *)
Lemma run_Return (fuel : nat) (P : params) (mc : nat) (h : list record) (t : Qc) :
  minimum_mortgage_repay_time_with_tracking fuel P = Return (mc, h, t) ->
  exists thr st,
    new (year (p_current_date P) + n_years_with_allowance P)
        (PyDate.month (p_current_date P)) (day (p_current_date P)) = Some thr /\
    valid (p_current_date P) /\
    loop P thr (p_current_date P) fuel (init_state P (p_current_date P))
      = Return st /\
    iterates P thr (p_current_date P) st /\
    mc = month_count st /\ h = history st /\ t = total_interest_paid st.
Proof.
  unfold minimum_mortgage_repay_time_with_tracking.
  destruct (new (year (p_current_date P) + n_years_with_allowance P) _ _)
    as [thr | ] eqn:Hthr; [ | discriminate ].
  destruct (new (year (p_current_date P)) _ _) as [sd | ] eqn:Hsd;
    [ | discriminate ].
  apply new_Some in Hsd. destruct Hsd as [Hsd Hv].
  assert (sd = p_current_date P) as -> by (rewrite Hsd; now destruct (p_current_date P)).
  destruct (loop P thr (p_current_date P) fuel _) as [st | | ] eqn:Hl;
    try discriminate.
  intros [= <- <- <-]. exists thr, st.
  repeat split; trivial.
  eapply loop_iterates; [ apply iterates_init | now apply cutoff_init | exact Hl ].
Qed.


Lemma length_iterates (P : params) (thr sd : date) (st : state) :
  iterates P thr sd st -> length (history st) = S (month_count st).
Proof.
  run_induction.
  - reflexivity.
  - intros st0 st' _ IH Hb. apply body_Some in Hb. destruct Hb as (d & _ & ->).
    cbn [history month_count]. rewrite length_app, IH. cbn. lia.
Qed.

Lemma month_pre_iterates (P : params) (thr sd : date) (st : state) :
  valid_params P -> iterates P thr sd st -> month_pre P thr st.
Proof.
  intros HP. run_induction.
  - unfold month_pre, init_state;
      cbn [principal savings early_repay_used yearly_principal_snapshot].
    pose proof (Qc_mult_nonneg _ _ (vp_mortgage_amount _ HP)
                  (vp_early_repay_percent_lo _ HP)).
    repeat split; try apply HP. intros _. assumption.
  - intros st0 st' _ IH Hb. apply body_Some in Hb. destruct Hb as (d & Hd & ->).
    pose proof (month_body_post P thr HP st0 IH) as Hpost.
    unfold month_pre, in_window;
      cbn [principal savings early_repay_used yearly_principal_snapshot current_date].
    repeat split; try apply Hpost.
    intros Hw. apply (next_month_window _ _ _ Hd) in Hw.
    apply (month_body_cap P thr st0 Hw).
Qed.

Lemma calendar_iterates (P : params) (thr : date) (st : state) :
  valid (p_current_date P) ->
  iterates P thr (p_current_date P) st -> calendar_inv P st.
Proof.
  intros Hv. run_induction.
  - split; cbn; trivial. lia.
  - intros st0 st' _ [Hm Hd Hv0 Ht] Hb.
    apply body_Some in Hb. destruct Hb as (d & Hn & ->).
    apply next_month_Some in Hn. destruct Hn as (Hvd & Hdd & Hmd).
    split; cbn [current_date month_count time_passed_days]; trivial; lia.
Qed.


(** A state that has not taken the [break] is less than 720 months in. *)
Lemma months_bound_iterates (P : params) (thr : date) (st : state) :
  valid (p_current_date P) ->
  iterates P thr (p_current_date P) st ->
  (month_count st <= 720)%nat /\
  (cutoff st = false -> (month_count st < 720)%nat).
Proof.
  intros Hv Hit. induction Hit as [ | st st' Hit IH Hcond Hcut Hb ].
  - cbn. split; intros; lia.
  - assert (Hit' : iterates P thr (p_current_date P) st')
      by (econstructor; eassumption).
    apply IH in Hcut.
    destruct (calendar_iterates _ _ _ Hv Hit') as [Hm Hd Hv' Ht].
    apply body_Some in Hb. destruct Hb as (d & _ & ->).
    cbn [month_count current_date time_passed_days] in *.
    split; [ lia | ].
    unfold cutoff; cbn [time_passed_days]. intros Hc.
    apply Z.ltb_ge in Hc.
    destruct (Nat.eq_dec (S (month_count st)) 720) as [E | ]; [ | lia ].
    apply check_date_fields_range in Hv, Hv'.
    assert (365 * 60 < sub_days d (p_current_date P))%Z; [ | lia ].
    apply sub_days_sixty_years; lia.
Qed.

Lemma loop_fuel_enough (P : params) (thr : date) (fuel : nat) :
  valid (p_current_date P) ->
  forall st,
    iterates P thr (p_current_date P) st -> cutoff st = false ->
    (720 <= month_count st + fuel)%nat ->
    loop P thr (p_current_date P) fuel st <> OutOfFuel.
Proof.
  intros Hv. induction fuel as [ | fuel IH ]; intros st Hit Hc Hf; cbn [loop];
    destruct (loop_cond P st) eqn:Hcond; try discriminate.
  - apply (months_bound_iterates _ _ _ Hv Hit) in Hc. lia.
  - destruct (body P thr (p_current_date P) st) as [st' | ] eqn:Hb;
      [ | discriminate ].
    destruct (cutoff st') eqn:Hc'; [ discriminate | ].
    apply IH; trivial.
    + econstructor; eassumption.
    + apply body_Some in Hb. destruct Hb as (d & _ & ->). cbn. lia.
Qed.

(** More fuel does not change the outcome of a run that had enough. *)
Lemma loop_fuel_mono (P : params) (thr sd : date) (fuel : nat) :
  forall st extra,
    loop P thr sd fuel st <> OutOfFuel ->
    loop P thr sd (fuel + extra) st = loop P thr sd fuel st.
Proof.
  induction fuel as [ | fuel IH ]; intros st extra; cbn [loop Nat.add].
  - destruct (loop_cond P st) eqn:Hcond; [ congruence | ].
    intros _. destruct extra; cbn [loop]; now rewrite Hcond.
  - destruct (loop_cond P st); trivial.
    destruct (body P thr sd st) as [st' | ]; trivial.
    destruct (cutoff st'); trivial. apply IH.
Qed.

Lemma loop_stop (P : params) (thr sd : date) (fuel : nat) (st : state) :
  loop_cond P st = false -> loop P thr sd fuel st = Return st.
Proof. intros H. destruct fuel; cbn [loop]; now rewrite H. Qed.

Lemma loop_returns (P : params) (thr : date) (fuel : nat) :
  safe_start P ->
  forall st,
    iterates P thr (p_current_date P) st -> cutoff st = false ->
    (720 <= month_count st + fuel)%nat ->
    exists st', loop P thr (p_current_date P) fuel st = Return st'.
Proof.
  intros [Hv Hday H60 _]. unfold MAXYEAR in H60.
  induction fuel as [ | fuel IH ]; intros st Hit Hc Hf; cbn [loop];
    destruct (loop_cond P st) eqn:Hcond; try (eexists; reflexivity).
  - apply (months_bound_iterates _ _ _ Hv Hit) in Hc. lia.
  - pose proof (proj2 (months_bound_iterates _ _ _ Hv Hit) Hc) as Hlt.
    destruct (calendar_iterates _ _ _ Hv Hit) as [Hm Hd Hvd _].
    apply check_date_fields_range in Hvd.
    pose proof (check_date_fields_range _ _ _ Hv) as Hvs.
    assert (Hn : exists d, next_month (current_date st) = Some d).
    { unfold next_month, replace, new.
      destruct (PyDate.month (current_date st) =? 12)%Z eqn:E.
      - apply Z.eqb_eq in E.
        rewrite check_date_fields_day_28 by lia. eauto.
      - apply Z.eqb_neq in E.
        rewrite check_date_fields_day_28 by lia. eauto. }
    destruct Hn as [d Hn].
    destruct (body P thr (p_current_date P) st) as [st' | ] eqn:Hb.
    + destruct (cutoff st') eqn:Hc'; [ eexists; reflexivity | ].
      apply IH; trivial.
      * econstructor; eassumption.
      * apply body_Some in Hb. destruct Hb as (d' & _ & ->). cbn. lia.
    + unfold body in Hb. rewrite Hn in Hb. discriminate.
Qed.

(** * Properties of the simulator *)

(** ** Termination *)

(** C1. Whatever the input, the loop stops within 720 iterations: with
    fuel for 720 iterations the run never runs out of fuel, more fuel does
    not change its outcome, and a returned month count is at most 720. *)
Theorem termination_bound (P : params) (extra : nat) :
  minimum_mortgage_repay_time_with_tracking (720 + extra) P
    = minimum_mortgage_repay_time_with_tracking 720 P /\
  match minimum_mortgage_repay_time_with_tracking 720 P with
  | Return (mc, h, _) => (mc <= 720)%nat /\ length h = S mc
  | ValueError => True
  | OutOfFuel => False
  end.
Proof.
  unfold minimum_mortgage_repay_time_with_tracking.
  destruct (new (year (p_current_date P) + n_years_with_allowance P) _ _)
    as [thr | ]; [ | now split ].
  destruct (new (year (p_current_date P)) _ _) as [sd | ] eqn:Hsd;
    [ | now split ].
  apply new_Some in Hsd. destruct Hsd as [Hsd Hv].
  assert (sd = p_current_date P) as ->
    by (rewrite Hsd; now destruct (p_current_date P)).
  pose proof (iterates_init P thr (p_current_date P)) as Hit.
  pose proof (cutoff_init P _ eq_refl) as Hc.
  assert (Hfuel : loop P thr (p_current_date P) 720
                    (init_state P (p_current_date P)) <> OutOfFuel)
    by (apply loop_fuel_enough; trivial; cbn; lia).
  rewrite (loop_fuel_mono _ _ _ _ _ extra Hfuel).
  split; [ reflexivity | ].
  destruct (loop P thr (p_current_date P) 720 _) as [st | | ] eqn:Hl;
    [ | exact I | congruence ].
  pose proof (loop_iterates _ _ _ _ _ _ Hit Hc Hl) as Hst.
  split.
  - now apply (months_bound_iterates _ _ _ Hv Hst).
  - now apply (length_iterates _ _ _ _ Hst).
Qed.

(** ** Conservation *)

Lemma conservation_iterates (P : params) (thr sd : date) (st : state) :
  iterates P thr sd st -> Forall (conserved P) (history st).
Proof.
  run_induction.
  - repeat constructor.
  - intros st0 st' _ IH Hb. apply body_Some in Hb. destruct Hb as (d & _ & ->).
    cbn [history]. apply Forall_app. split; [ exact IH | ].
    repeat constructor.
Qed.

(** C2. In every record of the history, the first snapshot included,
    [total_paid] is [mortgage_amount - principal_remaining + interest_paid],
    computed from the same record's fields: in every state a run goes
    through, and so in the history the call returns. *)
Theorem history_conservation (P : params) :
  (forall thr sd st,
     iterates P thr sd st ->
     Forall (fun r => total_paid r
               = mortgage_amount P - principal_remaining r + interest_paid r)
            (history st)) /\
  (forall fuel mc h t,
     minimum_mortgage_repay_time_with_tracking fuel P = Return (mc, h, t) ->
     Forall (fun r => total_paid r
               = mortgage_amount P - principal_remaining r + interest_paid r) h).
Proof.
  split.
  - intros thr sd st Hit. exact (conservation_iterates _ _ _ _ Hit).
  - intros fuel mc h t H. apply run_Return in H.
    destruct H as (thr & st & _ & _ & _ & Hit & _ & -> & _).
    exact (conservation_iterates _ _ _ _ Hit).
Qed.

Lemma history_conservation_witness :
  Forall (fun r => total_paid r
            = mortgage_amount small_loan - principal_remaining r + interest_paid r)
         (history (init_state small_loan (mkdate 2025 12 1))) /\
  exists mc h t,
    minimum_mortgage_repay_time_with_tracking 10 small_loan = Return (mc, h, t) /\
    mc = 3%nat /\
    Forall (fun r => total_paid r
              = mortgage_amount small_loan - principal_remaining r + interest_paid r) h.
Proof.
  split.
  - apply (proj1 (history_conservation small_loan)
             (mkdate 2026 12 1) (mkdate 2025 12 1)).
    apply iterates_init.
  - eexists _, _, _. split; [ vm_compute; reflexivity | ].
    split; [ reflexivity | ].
    eapply (proj2 (history_conservation small_loan) 10%nat).
    vm_compute. reflexivity.
Defined.

(** ** The cap *)

(** C4. Inside the capped window the running total [early_repay_used]
    stays within [yearly_principal_snapshot * early_repay_percent]: on
    entry to the month, after the January reset, and after the month's
    early repayment, which is at most what is left of the cap. *)
Theorem cap_respected (P : params) (thr sd : date) (st : state) :
  valid_params P ->
  iterates P thr sd st ->
  in_window thr st ->
  let m := month_body P thr st in
  early_repay_used st <= yearly_principal_snapshot st * early_repay_percent P /\
  used_for_cap m <= snapshot_for_cap m * early_repay_percent P /\
  actual_early_repay m
    <= snapshot_for_cap m * early_repay_percent P - used_for_cap m /\
  m_early_repay_used m <= snapshot_for_cap m * early_repay_percent P /\
  forall st', body P thr sd st = Some st' ->
    early_repay_used st' <= yearly_principal_snapshot st' * early_repay_percent P.
Proof.
  intros HP Hit Hw m.
  pose proof (month_pre_iterates _ _ _ _ HP Hit) as Hpre.
  pose proof (month_body_post P thr HP st Hpre) as Hpost.
  destruct (month_body_cap P thr st Hw) as (El & Ha & Hu). fold m in El, Ha, Hu.
  destruct Hpre as (_ & _ & Hused).
  pose proof (mp_limit _ Hpost) as Hl. fold m in Hl.
  split; [ now apply Hused | ].
  split; [ rewrite El in Hl; qc_lra | ].
  split; [ now rewrite <- El | ].
  split; [ exact Hu | ].
  intros st' Hb. apply body_Some in Hb. destruct Hb as (d & _ & ->).
  exact Hu.
Qed.

Lemma small_loan_valid : valid_params small_loan.
Proof. constructor; vm_compute; discriminate. Qed.

Lemma cap_respected_witness :
  let thr := mkdate 2026 12 1 in
  let st := init_state small_loan (mkdate 2025 12 1) in
  let m := month_body small_loan thr st in
  early_repay_used st
    <= yearly_principal_snapshot st * early_repay_percent small_loan /\
  used_for_cap m <= snapshot_for_cap m * early_repay_percent small_loan /\
  actual_early_repay m
    <= snapshot_for_cap m * early_repay_percent small_loan - used_for_cap m /\
  m_early_repay_used m <= snapshot_for_cap m * early_repay_percent small_loan /\
  forall st', body small_loan thr (mkdate 2025 12 1) st = Some st' ->
    early_repay_used st'
      <= yearly_principal_snapshot st' * early_repay_percent small_loan.
Proof.
  apply (cap_respected small_loan (mkdate 2026 12 1) (mkdate 2025 12 1)).
  - exact small_loan_valid.
  - apply iterates_init.
  - reflexivity.
Defined.

(** ** Non-negative balances *)

Lemma nonneg_iterates (P : params) (thr sd : date) (st : state) :
  valid_params P -> iterates P thr sd st -> Forall nonneg_record (history st).
Proof.
  intros HP. run_induction.
  - repeat constructor; cbn; apply HP.
  - intros st0 st' Hit IH Hb. apply body_Some in Hb. destruct Hb as (d & _ & ->).
    pose proof (month_body_post P thr HP st0 (month_pre_iterates _ _ _ _ HP Hit))
      as Hpost.
    cbn [history]. apply Forall_app. split; [ exact IH | ].
    repeat constructor; cbn; apply Hpost.
Qed.

(** C3. Under the preconditions, every record of the history has
    [principal_remaining >= 0] and [savings >= 0]: in every state a run
    goes through, and so in the history the call returns. *)
Theorem history_nonnegative (P : params) :
  valid_params P ->
  (forall thr sd st,
     iterates P thr sd st ->
     0 <= principal st /\ 0 <= savings st /\
     Forall (fun r => 0 <= principal_remaining r /\ 0 <= r_savings r) (history st)) /\
  (forall fuel mc h t,
     minimum_mortgage_repay_time_with_tracking fuel P = Return (mc, h, t) ->
     Forall (fun r => 0 <= principal_remaining r /\ 0 <= r_savings r) h).
Proof.
  intros HP. split.
  - intros thr sd st Hit.
    destruct (month_pre_iterates _ _ _ _ HP Hit) as (Hp & Hs & _).
    repeat split; trivial. exact (nonneg_iterates _ _ _ _ HP Hit).
  - intros fuel mc h t H. apply run_Return in H.
    destruct H as (thr & st & _ & _ & _ & Hit & _ & -> & _).
    exact (nonneg_iterates _ _ _ _ HP Hit).
Qed.

Lemma history_nonnegative_witness :
  Forall (fun r => 0 <= principal_remaining r /\ 0 <= r_savings r)
         (history (init_state small_loan (mkdate 2025 12 1))) /\
  exists mc h t,
    minimum_mortgage_repay_time_with_tracking 10 small_loan = Return (mc, h, t) /\
    length h = 4%nat /\
    Forall (fun r => 0 <= principal_remaining r /\ 0 <= r_savings r) h.
Proof.
  destruct (history_nonnegative small_loan small_loan_valid) as [Hrun Hret].
  split.
  - apply (Hrun (mkdate 2026 12 1) (mkdate 2025 12 1)). apply iterates_init.
  - eexists _, _, _. split; [ vm_compute; reflexivity | ].
    split; [ reflexivity | ].
    eapply (Hret 10%nat). vm_compute. reflexivity.
Defined.

(** ** Monotone totals *)





(** ** Start dates *)

(** C9, as the code has it.  A start date whose day every month has (at
    most 28), with sixty years and the allowance window below year 9999,
    makes the call return: no date built on the way is refused. *)
Theorem safe_start_returns (P : params) :
  safe_start P ->
  exists mc h t,
    minimum_mortgage_repay_time_with_tracking 720 P = Return (mc, h, t).
Proof.
  intros HS. pose proof HS as [Hv Hday H60 Hall].
  unfold minimum_mortgage_repay_time_with_tracking, new.
  pose proof (check_date_fields_range _ _ _ Hv) as Hr.
  unfold MINYEAR, MAXYEAR in Hall.
  rewrite check_date_fields_day_28 by lia.
  unfold valid in Hv. rewrite Hv.
  replace (mkdate (year (p_current_date P)) (PyDate.month (p_current_date P))
             (day (p_current_date P))) with (p_current_date P)
    by now destruct (p_current_date P).
  match goal with
  | |- context [loop P ?thr _ _ _] =>
    destruct (loop_returns P thr 720 HS _ (iterates_init P thr _)
                (cutoff_init P _ eq_refl)) as [st ->]; [ cbn; lia | ]
  end.
  eauto.
Qed.

Lemma small_loan_safe_start : safe_start small_loan.
Proof. constructor; vm_compute; try split; try reflexivity; discriminate. Qed.

Lemma safe_start_returns_witness :
  exists mc h t,
    minimum_mortgage_repay_time_with_tracking 720 small_loan = Return (mc, h, t).
Proof. apply (safe_start_returns small_loan). exact small_loan_safe_start. Defined.

Lemma loan_from_31st_valid :
  valid_params loan_from_31st /\ valid (p_current_date loan_from_31st).
Proof. split; [ constructor | ]; vm_compute; reflexivity || discriminate. Qed.

(** C9 as stated fails: a loan that starts on 31 January raises
    [ValueError] in its first iteration, when the date is moved to
    31 February. *)
Lemma start_day_31_raises :
  ~ (forall P, valid_params P -> valid (p_current_date P) ->
       exists fuel r,
         minimum_mortgage_repay_time_with_tracking fuel P = Return r).
Proof.
  intros H.
  destruct (H loan_from_31st) as (fuel & r & E); try apply loan_from_31st_valid.
  destruct fuel; vm_compute in E; discriminate.
Qed.

(** ** The January reset *)

(** C6. The reset is decided on the date the iteration starts with: on a
    1 January the snapshot becomes the principal left after interest and
    the monthly payment and the running total restarts from 0, otherwise
    both are kept; the month's cap is computed from these values, so on a
    1 January inside the window it is the fresh snapshot times the
    fraction; what the iteration hands over is that snapshot and the
    running total plus the month's early repayment, under the next date. *)
Theorem annual_reset (P : params) (thr sd : date) (st : state) :
  let m := month_body P thr st in
  let jan1 := (PyDate.month (current_date st) =? 1)%Z
              && (day (current_date st) =? 1)%Z in
  principal_after_payment m
    = principal st + principal st * monthly_mortgage_rate P - actual_payment m /\
  snapshot_for_cap m
    = (if jan1 then principal_after_payment m else yearly_principal_snapshot st) /\
  used_for_cap m = (if jan1 then 0 else early_repay_used st) /\
  (ltb (current_date st) thr = true ->
   early_repay_limit m
     = (if jan1 then principal_after_payment m * early_repay_percent P - 0
        else yearly_principal_snapshot st * early_repay_percent P
             - early_repay_used st)) /\
  forall st', body P thr sd st = Some st' ->
    next_month (current_date st) = Some (current_date st') /\
    yearly_principal_snapshot st'
      = (if jan1 then principal_after_payment m else yearly_principal_snapshot st) /\
    early_repay_used st'
      = (if jan1 then 0 else early_repay_used st) + actual_early_repay m.
Proof.
  intros m jan1.
  destruct (month_body_spec P thr st)
    as [Ei _ _ _ Epap _ Esnap Eused Elim _ _ _ Efu].
  fold m in Ei, Epap, Esnap, Eused, Elim, Efu. fold jan1 in Esnap, Eused.
  split; [ now rewrite Epap, Ei | ].
  split; [ exact Esnap | ]. split; [ exact Eused | ].
  split.
  - intros Hw. rewrite Elim, Hw, Esnap, Eused. now destruct jan1.
  - intros st' Hb. apply body_Some in Hb. destruct Hb as (d & Hd & ->).
    fold m. cbn [current_date yearly_principal_snapshot early_repay_used].
    rewrite Efu, Esnap, Eused. auto.
Qed.

Lemma annual_reset_witness :
  let thr := mkdate 2026 12 1 in
  let sd := mkdate 2025 12 1 in
  exists st1 st2,
    body small_loan thr sd (init_state small_loan sd) = Some st1 /\
    body small_loan thr sd st1 = Some st2 /\
    current_date st1 = mkdate 2026 1 1 /\
    yearly_principal_snapshot st1 = lit 1000 1 /\
    yearly_principal_snapshot st2
      = principal_after_payment (month_body small_loan thr st1) /\
    early_repay_used st2 = 0 + actual_early_repay (month_body small_loan thr st1).
Proof.
  intros thr sd. eexists _, _.
  split; [ vm_compute; reflexivity | ].
  split; [ vm_compute; reflexivity | ].
  split; [ reflexivity | ].
  split; [ vm_compute; reflexivity | ].
  match goal with
  | |- yearly_principal_snapshot ?st2 = principal_after_payment (month_body _ _ ?st1) /\ _ =>
    destruct (annual_reset small_loan thr sd st1) as (_ & _ & _ & _ & H);
      destruct (H st2) as (_ & Hs & Hu); [ vm_compute; reflexivity | ]
  end.
  split; [ exact Hs | exact Hu ].
Defined.

(** ** A month that revenue and savings cannot pay for *)




(** ** Scenario 2: unlimited early repayment *)

Lemma scenario2_first_month (cd : date) (s sr py : Qc) :
  0 <= s -> 0 <= sr ->
  let P := scenario2 cd s sr py in
  let m := month_body P cd (init_state P cd) in
  interest_this_month m = 0 /\
  m_total_interest_paid m = 0 /\
  actual_payment m = lit 500 1 /\
  principal_after_payment m = lit 9500 1 /\
  leftover_after_payment m = lit 10000 1 /\
  actual_early_repay m = lit 9500 1 /\
  m_principal m = 0 /\
  m_savings m = s * (1 + sr / lit 12 1) + lit 500 1.
Proof.
  intros Hs Hsr P m.
  destruct (month_body_spec P cd (init_state P cd))
    as [Ei Eti Esv Eap Epap Elo _ _ _ _ Efs _ _].
  fold m in Ei, Eti, Esv, Eap, Epap, Elo, Efs.
  destruct (unlimited_month P cd (init_state P cd) (ltb_irrefl cd)) as [_ Hu].
  fold m in Hu.
  unfold monthly_mortgage_rate, monthly_savings_rate in *.
  change (principal (init_state P cd)) with (lit 10000 1) in *.
  change (savings (init_state P cd)) with s in *.
  change (total_interest_paid (init_state P cd)) with (Q2Qc 0) in *.
  change (monthly_payment P) with (lit 500 1) in *.
  change (monthly_revenue P) with (lit 10500 1) in *.
  change (mortgage_interest_rate P) with (Q2Qc 0) in *.
  change (savings_interest_rate P) with sr in *.
  assert (HP : 0 <= savings_after_interest m).
  { rewrite Esv. apply Qc_mult_nonneg; [ exact Hs | ].
    pose proof (Qc_div12_nonneg _ Hsr). qc_lra. }
  assert (Ei0 : interest_this_month m = 0)
    by (rewrite Ei, zero_rate; clear; qc_lra).
  assert (Eap0 : actual_payment m = lit 500 1).
  { rewrite Eap, Ei0. reflexivity. }
  assert (Epap0 : principal_after_payment m = lit 9500 1)
    by (rewrite Epap, Ei0, Eap0; clear; qc_lra).
  assert (Elo0 : leftover_after_payment m = lit 10000 1)
    by (rewrite Elo, Eap0; clear; qc_lra).
  destruct Hu as [Ea Ep0]; [ rewrite Epap0, Elo0; clear - HP; qc_lra | ].
  rewrite Epap0 in Ea.
  repeat (split; trivial).
  - rewrite Eti, Ei0. clear. qc_lra.
  - rewrite <- Esv, Efs, Ea, Elo0.
    destruct (Qclt_bool_spec (lit 10000 1) (lit 9500 1)) as [[_ H] | [-> _]].
    + exfalso. clear - H. qc_lra.
    + clear. qc_lra.
Qed.

(** C7. Past the window the month's limit is the whole principal left
    after the payment, and the month retires it when leftover and savings
    cover it.  In scenario 2, from any start date that has a next month and
    any non-negative savings and savings rate, the first iteration repays
    9500 out of a leftover of 10000, leaves the principal at 0 and adds the
    other 500 to the savings; with no projection the call returns after
    that one month. *)
Theorem unlimited_phase :
  (forall (P : params) (thr : date) (st : state),
     ltb (current_date st) thr = false ->
     let m := month_body P thr st in
     early_repay_limit m = principal_after_payment m /\
     (principal_after_payment m
        <= leftover_after_payment m + savings_after_interest m ->
      actual_early_repay m = principal_after_payment m /\ m_principal m = 0)) /\
  (forall (cd d1 : date) (s sr py : Qc) (fuel : nat),
     valid cd -> next_month cd = Some d1 -> 0 <= s -> 0 <= sr ->
     let P := scenario2 cd s sr py in
     let m := month_body P cd (init_state P cd) in
     exists st1,
       body P cd cd (init_state P cd) = Some st1 /\
       month_count st1 = 1%nat /\
       ltb (current_date (init_state P cd)) cd = false /\
       actual_early_repay m = lit 9500 1 /\
       leftover_after_payment m = lit 10000 1 /\
       principal st1 = 0 /\
       savings st1 = s * (1 + sr / lit 12 1) + lit 500 1 /\
       map principal_remaining (history st1) = [lit 10000 1; 0] /\
       (py = 0 ->
        minimum_mortgage_repay_time_with_tracking (S fuel) P
        = Return (1%nat, history st1, 0))).
Proof.
  split; [ exact unlimited_month | ].
  intros cd d1 s sr py fuel Hv Hn Hs Hsr P m.
  destruct (scenario2_first_month cd s sr py Hs Hsr)
    as (_ & Eti & _ & _ & Elo & Ea & Ep & Esv).
  fold P in Eti, Elo, Ea, Ep, Esv. fold m in Eti, Elo, Ea, Ep, Esv.
  destruct (body P cd cd (init_state P cd)) as [st1 | ] eqn:Hb;
    [ | unfold body in Hb; cbn [current_date init_state] in Hb;
        cbn [P scenario2 p_current_date] in Hb; rewrite Hn in Hb; discriminate ].
  exists st1. pose proof Hb as Hb'.
  apply body_Some in Hb'. destruct Hb' as (d & Hd & E).
  cbn [current_date init_state P scenario2 p_current_date] in Hd.
  rewrite Hn in Hd. injection Hd as <-.
  fold m in E.
  assert (Ec : month_count st1 = 1%nat) by now rewrite E.
  assert (Ep1 : principal st1 = 0) by now rewrite E.
  assert (Et1 : total_interest_paid st1 = 0) by now rewrite E.
  assert (Eh : map principal_remaining (history st1) = [lit 10000 1; 0]).
  { rewrite E. cbn [history init_state map app snapshot principal_remaining].
    now rewrite Ep. }
  repeat (split; [ first [ reflexivity | assumption | apply ltb_irrefl
                         | now rewrite E ] | ]).
  intros ->.
  unfold minimum_mortgage_repay_time_with_tracking.
  change (n_years_with_allowance P) with 0%Z.
  change (p_current_date P) with cd.
  rewrite Z.add_0_r, (new_valid cd Hv).
  cbn [loop].
  replace (loop_cond P (init_state P cd)) with true by reflexivity.
  rewrite Hb.
  assert (Hstop : loop_cond P st1 = false).
  { unfold loop_cond. rewrite Ep1. apply orb_false_iff. split; [ reflexivity | ].
    apply Qclt_bool_lit_0. rewrite E. cbn [time_passed_days].
    rewrite (next_month_days _ _ Hv Hn).
    apply check_date_fields_range in Hv.
    pose proof (days_in_month_ge_28 (year cd) (PyDate.month cd)). lia. }
  rewrite (loop_stop _ _ _ _ _ Hstop).
  destruct (cutoff st1); cbv beta iota; rewrite Ec, Et1; reflexivity.
Qed.

Lemma unlimited_phase_witness :
  let cd := mkdate 2025 8 1 in
  let P := scenario2 cd (lit 5000 1) (lit 3 100) 0 in
  let m := month_body P cd (init_state P cd) in
  early_repay_limit m = principal_after_payment m /\
  exists h,
    minimum_mortgage_repay_time_with_tracking 1 P = Return (1%nat, h, 0) /\
    map principal_remaining h = [lit 10000 1; 0].
Proof.
  intros cd P m. split.
  - destruct (proj1 unlimited_phase P cd (init_state P cd)) as [H _];
      [ reflexivity | exact H ].
  - destruct (proj2 unlimited_phase cd (mkdate 2025 9 1) (lit 5000 1) (lit 3 100)
                0 0%nat) as (st1 & _ & _ & _ & _ & _ & _ & _ & Eh & Hr).
    + reflexivity.
    + reflexivity.
    + vm_compute. discriminate.
    + vm_compute. discriminate.
    + exists (history st1). split; [ apply Hr; reflexivity | exact Eh ].
Defined.

(** ** Scenario 1: no early repayment *)


Section Scenario1.

Variable cd : date.
Variable s : Qc.
Hypothesis Hvalid : valid cd.
Hypothesis Hday : day cd = 1%Z.
Hypothesis Hyear : (year cd + 100 <= 9999)%Z.
Hypothesis Hs : 0 <= s.

Let P := scenario1 cd s.
Let thr := mkdate (year cd + 100) (PyDate.month cd) (day cd).




End Scenario1.



(** * Further properties of the simulator and of the dashboard *)

(** ** Histories *)

Lemma adjacent_snoc (R : record -> record -> Prop) (pre : list record)
    (r r' : record) :
  adjacent R (pre ++ [r]) -> R r r' -> adjacent R ((pre ++ [r]) ++ [r']).
Proof.
  intros Hadj HR i a b Ha Hb.
  assert (Hlen : length (pre ++ [r]) = S (length pre))
    by (rewrite length_app; cbn; lia).
  destruct (Nat.lt_ge_cases (S i) (length (pre ++ [r]))) as [Hlt | Hge].
  - rewrite nth_error_app1 in Ha, Hb by lia. eapply Hadj; eassumption.
  - assert (Hi : i = length pre).
    { assert (Hlt : (S i < length ((pre ++ [r]) ++ [r']))%nat)
        by (apply nth_error_Some; congruence).
      rewrite length_app in Hlt. cbn in Hlt. lia. }
    subst i.
    rewrite nth_error_app1 in Ha by lia.
    rewrite nth_error_app2, Nat.sub_diag in Ha by lia. cbn in Ha.
    rewrite nth_error_app2 in Hb by lia.
    rewrite Hlen, Nat.sub_diag in Hb. cbn in Hb.
    apply Some_inj in Ha, Hb. now subst.
Qed.

Lemma adjacent_single (R : record -> record -> Prop) (r : record) :
  adjacent R [r].
Proof. intros [ | i ] a b Ha Hb; cbn in Hb; [ | destruct i ]; discriminate. Qed.

(** The last record of the history is the snapshot of the current state. *)
Lemma history_last (P : params) (thr sd : date) (st : state) :
  iterates P thr sd st ->
  exists pre,
    history st
    = pre ++ [snapshot P (current_date st) (principal st) (savings st)
                (total_interest_paid st)].
Proof.
  run_induction.
  - now exists [].
  - intros st0 st' _ _ Hb. apply body_Some in Hb. destruct Hb as (d & _ & ->).
    cbn [history current_date principal savings total_interest_paid].
    now exists (history st0).
Qed.

(** A relation between the snapshot of a state and that of the next one
    holds all along the history. *)
Lemma adjacent_iterates (P : params) (thr sd : date)
    (R : record -> record -> Prop) :
  (forall st st',
     iterates P thr sd st -> body P thr sd st = Some st' ->
     R (snapshot P (current_date st) (principal st) (savings st)
          (total_interest_paid st))
       (snapshot P (current_date st') (principal st') (savings st')
          (total_interest_paid st'))) ->
  forall st, iterates P thr sd st -> adjacent R (history st).
Proof.
  intros HR. apply iterates_ind_inv.
  - apply adjacent_single.
  - intros st st' Hit IH Hb.
    pose proof (HR _ _ Hit Hb) as Hstep.
    destruct (history_last _ _ _ _ Hit) as [pre Epre].
    apply body_Some in Hb. destruct Hb as (d & _ & ->).
    cbn [history current_date principal savings total_interest_paid] in *.
    rewrite Epre in *. now apply adjacent_snoc.
Qed.

(** ** Where the money goes *)

Lemma month_cash (P : params) (thr : date) (st : state) :
  let m := month_body P thr st in
  actual_early_repay m <= leftover_after_payment m + savings_after_interest m /\
  m_savings m
  = savings_after_interest m + leftover_after_payment m - actual_early_repay m.
Proof.
  intros m.
  destruct (month_body_spec P thr st) as [_ _ _ _ _ _ _ _ _ Eaer Efs _ _].
  fold m in Eaer, Efs.
  assert (Hle : actual_early_repay m
                <= leftover_after_payment m + savings_after_interest m).
  { rewrite Eaer.
    destruct (min3_spec (leftover_after_payment m + savings_after_interest m)
                (early_repay_limit m) (principal_after_payment m))
      as [(E & _) | [(E & H & _) | (E & H & _)]]; rewrite E.
    - unfold Qcle. apply Qle_refl.
    - clear - H. qc_lra.
    - clear - H. qc_lra. }
  split; [ exact Hle | ].
  rewrite Efs.
  destruct (Qclt_bool_spec (leftover_after_payment m) (actual_early_repay m))
    as [[-> Hb] | [-> Hb]].
  - destruct (max2_spec 0 (savings_after_interest m
                 - (actual_early_repay m - leftover_after_payment m)))
      as [[Hm ->] | [Hm ->]]; clear - Hm Hle; qc_lra.
  - clear. qc_lra.
Qed.





(** ** The principal from month to month *)




(** ** After the mortgage is repaid *)

Lemma paid_off_values (P : params) (thr sd : date) (st : state) :
  valid_params P -> iterates P thr sd st -> principal st = 0 ->
  let m := month_body P thr st in
  interest_this_month m = 0 /\ actual_payment m = 0 /\
  actual_early_repay m = 0 /\ m_principal m = 0 /\
  m_total_interest_paid m = total_interest_paid st /\
  m_savings m = savings st * (1 + monthly_savings_rate P) + monthly_revenue P.
Proof.
  intros HP Hit Hp m.
  pose proof (month_body_post P thr HP st (month_pre_iterates _ _ _ _ HP Hit))
    as [_ Hap0 _ Hsv Hlim _ _ _ _ _].
  destruct (month_cash P thr st) as [_ Es].
  destruct (month_body_spec P thr st)
    as [Ei Eti Esv Eap Epap Elo _ _ _ Eaer _ Efp _].
  fold m in Hap0, Hsv, Hlim, Es, Ei, Eti, Esv, Eap, Epap, Elo, Eaer, Efp.
  pose proof (vp_monthly_payment _ HP) as Hmp.
  pose proof (vp_monthly_revenue _ HP) as Hrev.
  rewrite Hp in Ei, Eap, Epap.
  assert (Ei0 : interest_this_month m = 0) by (rewrite Ei; clear; qc_lra).
  assert (Eap0 : actual_payment m = 0).
  { rewrite Ei0 in Eap. revert Hap0. rewrite Eap.
    destruct (min2_spec (monthly_payment P) (0 + 0)) as [[H ->] | [H ->]];
      intros Hap0; clear - H Hap0 Hmp; qc_lra. }
  assert (Epap0 : principal_after_payment m = 0)
    by (rewrite Epap, Ei0, Eap0; clear; qc_lra).
  assert (Elo0 : leftover_after_payment m = monthly_revenue P)
    by (rewrite Elo, Eap0; clear; qc_lra).
  assert (Ea0 : actual_early_repay m = 0).
  { rewrite Eaer, Epap0, Elo0.
    destruct (min3_spec (monthly_revenue P + savings_after_interest m)
                (early_repay_limit m) 0)
      as [(E & _ & H) | [(E & _ & H) | (E & _)]]; rewrite E; trivial;
      clear - H Hrev Hsv Hlim; qc_lra. }
  repeat split; trivial.
  - rewrite Efp, Epap0, Ea0. clear. qc_lra.
  - rewrite Eti, Ei0. clear. qc_lra.
  - rewrite Es, Elo0, Ea0, Esv. clear. qc_lra.
Qed.

(** X4. Under the preconditions, a month that starts with the principal
    at 0 charges no interest, pays nothing, and ends with the principal
    still at 0 and the whole revenue added to the savings and their
    interest. *)
Theorem paid_off_month (P : params) (thr sd : date) (st st' : state) :
  valid_params P -> iterates P thr sd st -> principal st = 0 ->
  body P thr sd st = Some st' ->
  actual_payment (month_body P thr st) = 0 /\
  actual_early_repay (month_body P thr st) = 0 /\
  principal st' = 0 /\
  total_interest_paid st' = total_interest_paid st /\
  savings st'
  = savings st * (1 + savings_interest_rate P / lit 12 1) + monthly_revenue P.
Proof.
  intros HP Hit Hp Hb.
  destruct (paid_off_values P thr sd st HP Hit Hp) as (_ & Ea & Ee & Ep & Et & Es).
  apply body_Some in Hb. destruct Hb as (d & _ & ->).
  cbn [principal total_interest_paid savings]. auto.
Qed.

(** Once a record shows a principal of 0, so does the next one. *)
Lemma zero_stays_zero (P : params) (thr sd : date) (st : state) :
  valid_params P -> iterates P thr sd st ->
  adjacent (fun r r' => principal_remaining r = 0 -> principal_remaining r' = 0)
    (history st).
Proof.
  intros HP. apply adjacent_iterates.
  intros st0 st1 Hit Hb. cbn [snapshot principal_remaining]. intros Hp.
  apply body_Some in Hb. destruct Hb as (d & _ & ->). cbn [principal].
  now apply (paid_off_values P thr sd st0 HP Hit Hp).
Qed.

Lemma filter_none {A : Type} (f : A -> bool) (l : list A) :
  (forall x, In x l -> f x = false) -> filter f l = [].
Proof.
  induction l as [ | a l IH ]; intros H; cbn; trivial.
  rewrite (H a) by now left. apply IH. intros x Hx. apply H. now right.
Qed.

(** In a list of non-negative amounts where a 0 is only followed by 0,
    the positive amounts come first. *)
Lemma positive_prefix (l : list Qc) :
  (forall x, In x l -> 0 <= x) ->
  (forall i a b, nth_error l i = Some a -> nth_error l (S i) = Some b ->
                 a = 0 -> b = 0) ->
  forall i x, nth_error l i = Some x ->
    ((i < length (filter (fun p => Qclt_bool 0 p) l))%nat -> 0 < x) /\
    ((length (filter (fun p => Qclt_bool 0 p) l) <= i)%nat -> x = 0).
Proof.
  induction l as [ | a l IH ]; intros Hpos Hadj i x Hx.
  - destruct i; discriminate.
  - assert (Hpos' : forall y, In y l -> 0 <= y)
      by (intros y Hy; apply Hpos; now right).
    assert (Hadj' : forall j u v, nth_error l j = Some u ->
              nth_error l (S j) = Some v -> u = 0 -> v = 0)
      by (intros j u v Hu Hv; exact (Hadj (S j) u v Hu Hv)).
    cbn [filter]. destruct (Qclt_bool_spec 0 a) as [[-> Ha] | [-> Ha]].
    + destruct i as [ | i ]; cbn [nth_error length] in *.
      * apply Some_inj in Hx. subst x. split; [ trivial | lia ].
      * destruct (IH Hpos' Hadj' i x Hx) as [H1 H2].
        split; intros; [ apply H1 | apply H2 ]; lia.
    + assert (Ea : a = 0).
      { pose proof (Hpos a (or_introl eq_refl)). clear - H Ha. qc_lra. }
      assert (Hall : forall j y, nth_error (a :: l) j = Some y -> y = 0).
      { induction j as [ | j IHj ]; intros y Hy.
        - apply Some_inj in Hy. now subst.
        - destruct (nth_error (a :: l) j) as [u | ] eqn:Eu.
          + exact (Hadj j u y Eu Hy (IHj u eq_refl)).
          + apply nth_error_None in Eu.
            assert (S j < length (a :: l))%nat
              by (apply nth_error_Some; congruence).
            lia. }
      rewrite filter_none.
      * split; [ cbn; lia | intros _; exact (Hall i x Hx) ].
      * intros y Hy. apply In_nth_error in Hy. destruct Hy as [j Hj].
        rewrite (Hall (S j) y Hj). reflexivity.
Qed.

(** X5. Under the preconditions, the dashboard's duration, the number
    of records with a positive principal, splits the returned history in
    two: the records before that index have a positive principal, and all
    the records from it on have a principal of exactly 0.  It is at most
    the number of records. *)
Theorem duration_is_payoff_month (fuel : nat) (P : params)
    (mc : nat) (h : list record) (t : Qc) :
  valid_params P ->
  minimum_mortgage_repay_time_with_tracking fuel P = Return (mc, h, t) ->
  (repay_months h <= S mc)%nat /\
  forall i r, nth_error h i = Some r ->
    ((i < repay_months h)%nat -> 0 < principal_remaining r) /\
    ((repay_months h <= i)%nat -> principal_remaining r = 0).
Proof.
  intros HP H. apply run_Return in H.
  destruct H as (thr & st & _ & _ & _ & Hit & -> & -> & _).
  split.
  - unfold repay_months.
    rewrite <- (length_iterates _ _ _ _ Hit), <- (length_map principal_remaining).
    apply filter_length_le.
  - intros i r Hr. unfold repay_months.
    apply (positive_prefix (map principal_remaining (history st))).
    + intros x Hx. apply in_map_iff in Hx. destruct Hx as (r0 & <- & Hr0).
      pose proof (nonneg_iterates _ _ _ _ HP Hit) as Hnn.
      rewrite Forall_forall in Hnn. now apply Hnn.
    + intros j a b Ha Hb.
      rewrite nth_error_map in Ha, Hb.
      destruct (nth_error (history st) j) as [ra | ] eqn:Era; [ | discriminate ].
      destruct (nth_error (history st) (S j)) as [rb | ] eqn:Erb; [ | discriminate ].
      cbn in Ha, Hb. apply Some_inj in Ha, Hb. subst a b.
      exact (zero_stays_zero _ _ _ _ HP Hit j ra rb Era Erb).
    + rewrite nth_error_map, Hr. reflexivity.
Qed.

Lemma duration_is_payoff_month_witness :
  exists mc h t,
    minimum_mortgage_repay_time_with_tracking 10 small_loan = Return (mc, h, t) /\
    repay_months h = 3%nat /\ duration h = (0%nat, 3%nat) /\
    forall i r, nth_error h i = Some r ->
      ((i < repay_months h)%nat -> 0 < principal_remaining r) /\
      ((repay_months h <= i)%nat -> principal_remaining r = 0).
Proof.
  eexists _, _, _. split; [ vm_compute; reflexivity | ].
  split; [ reflexivity | ]. split; [ reflexivity | ].
  eapply (duration_is_payoff_month 10 small_loan).
  - exact small_loan_valid.
  - vm_compute. reflexivity.
Defined.

Lemma paid_off_month_witness :
  let thr := mkdate 2026 12 1 in
  let sd := mkdate 2025 12 1 in
  exists st st',
    loop small_loan thr sd 10 (init_state small_loan sd) = Return st /\
    body small_loan thr sd st = Some st' /\
    principal st = 0 /\ principal st' = 0 /\
    savings st'
    = savings st * (1 + savings_interest_rate small_loan / lit 12 1)
      + monthly_revenue small_loan.
Proof.
  intros thr sd. eexists _, _.
  split; [ vm_compute; reflexivity | ].
  split; [ vm_compute; reflexivity | ].
  split; [ apply Qc_is_canon; reflexivity | ].
  match goal with
  | |- principal ?st' = 0 /\ savings ?st' = savings ?st * _ + _ =>
    destruct (paid_off_month small_loan thr sd st st') as (_ & _ & Hp & _ & Hs)
  end.
  - exact small_loan_valid.
  - apply (loop_iterates small_loan thr sd 10 (init_state small_loan sd));
      [ apply iterates_init | reflexivity | vm_compute; reflexivity ].
  - apply Qc_is_canon. reflexivity.
  - vm_compute. reflexivity.
  - split; [ exact Hp | exact Hs ].
Defined.

(** ** The shape of what is returned *)

Lemma last_of_snoc {A : Type} (pre : list A) (x : A) :
  nth_error (pre ++ [x]) (length pre) = Some x /\ rev (pre ++ [x]) = x :: rev pre.
Proof.
  split.
  - rewrite nth_error_app2, Nat.sub_diag by lia. reflexivity.
  - now rewrite rev_app_distr.
Qed.

Lemma first_record_iterates (P : params) (thr sd : date) (st : state) :
  iterates P thr sd st ->
  nth_error (history st) 0
  = Some (snapshot P (p_current_date P) (mortgage_amount P) (start_saving P) 0).
Proof.
  run_induction.
  - reflexivity.
  - intros st0 st' Hit IH Hb. apply body_Some in Hb. destruct Hb as (d & _ & ->).
    cbn [history]. rewrite nth_error_app1; trivial.
    rewrite (length_iterates _ _ _ _ Hit). lia.
Qed.

(** X6. A returned history has one record more than the month count;
    its first record is the start date with the whole mortgage, the initial
    savings, no interest and nothing paid; its last record, at index
    [month_count], carries the returned total interest, and its savings
    are the final savings the dashboard displays. *)
Theorem returned_history_shape (fuel : nat) (P : params)
    (mc : nat) (h : list record) (t : Qc) :
  minimum_mortgage_repay_time_with_tracking fuel P = Return (mc, h, t) ->
  length h = S mc /\
  (exists r0, nth_error h 0 = Some r0 /\
     r_date r0 = p_current_date P /\
     principal_remaining r0 = mortgage_amount P /\
     r_savings r0 = start_saving P /\
     interest_paid r0 = 0 /\ total_paid r0 = 0) /\
  (exists r, nth_error h mc = Some r /\
     interest_paid r = t /\ final_savings h = Some (r_savings r)).
Proof.
  intros H. apply run_Return in H.
  destruct H as (thr & st & _ & _ & _ & Hit & -> & -> & ->).
  pose proof (length_iterates _ _ _ _ Hit) as Hlen.
  split; [ exact Hlen | ]. split.
  - eexists. split; [ exact (first_record_iterates _ _ _ _ Hit) | ].
    cbn [snapshot r_date principal_remaining r_savings interest_paid total_paid].
    repeat split. qc_lra.
  - destruct (history_last _ _ _ _ Hit) as [pre Epre].
    assert (Hpre : month_count st = length pre).
    { rewrite Epre, length_app in Hlen. cbn in Hlen. lia. }
    eexists. rewrite Hpre, Epre. split; [ apply last_of_snoc | ].
    split; [ reflexivity | ].
    unfold final_savings. rewrite map_app. cbn [map].
    rewrite (proj2 (last_of_snoc _ _)). reflexivity.
Qed.

Lemma returned_history_shape_witness :
  exists mc h t,
    minimum_mortgage_repay_time_with_tracking 10 small_loan = Return (mc, h, t) /\
    length h = S mc /\
    exists r, nth_error h mc = Some r /\
      interest_paid r = t /\ final_savings h = Some (r_savings r).
Proof.
  eexists _, _, _. split; [ vm_compute; reflexivity | ].
  match goal with
  | |- length ?h = S ?mc /\ (exists r, _ /\ _ = ?t /\ _) =>
    assert (H : minimum_mortgage_repay_time_with_tracking 10 small_loan
                = Return (mc, h, t)) by (vm_compute; reflexivity);
      destruct (returned_history_shape 10 small_loan mc h t H)
        as (Hlen & _ & Hlast)
  end.
  split; [ exact Hlen | exact Hlast ].
Defined.

(** ** The dates of the records *)

(** What holds of every state under its month count holds of every record
    under its index. *)
Lemma indexed_iterates (P : params) (thr sd : date)
    (Q : nat -> record -> Prop) :
  (forall st, iterates P thr sd st ->
     Q (month_count st)
       (snapshot P (current_date st) (principal st) (savings st)
          (total_interest_paid st))) ->
  forall st, iterates P thr sd st ->
  forall i r, nth_error (history st) i = Some r -> Q i r.
Proof.
  intros HQ st Hit. induction Hit as [ | st st' Hit IH Hcond Hcut Hb ].
  - intros [ | i ] r Hr; [ | destruct i; discriminate ].
    cbn in Hr. apply Some_inj in Hr. subst r.
    exact (HQ _ (iterates_init P thr sd)).
  - assert (Hit' : iterates P thr sd st') by (econstructor; eassumption).
    pose proof (HQ _ Hit') as Hlast.
    destruct (history_last _ _ _ _ Hit') as [pre Epre].
    pose proof (length_iterates _ _ _ _ Hit') as Hlen.
    pose proof (length_iterates _ _ _ _ Hit) as Hlen0.
    apply body_Some in Hb. destruct Hb as (d & _ & E).
    assert (Eh : history st' = history st ++
              [snapshot P (current_date st') (principal st') (savings st')
                 (total_interest_paid st')]) by (rewrite E; reflexivity).
    assert (Ec : month_count st' = S (month_count st)) by (rewrite E; reflexivity).
    intros i r Hr. rewrite Eh in Hr.
    destruct (Nat.lt_ge_cases i (length (history st))) as [Hlt | Hge].
    + rewrite nth_error_app1 in Hr by exact Hlt. exact (IH i r Hr).
    + assert (i = length (history st)) as ->.
      { assert (Hb : (i < length (history st ++
                  [snapshot P (current_date st') (principal st') (savings st')
                     (total_interest_paid st')]))%nat)
          by (apply nth_error_Some; congruence).
        rewrite length_app in Hb. cbn in Hb. lia. }
      rewrite nth_error_app2, Nat.sub_diag in Hr by lia.
      cbn [nth_error] in Hr. apply Some_inj in Hr. subst r.
      rewrite Hlen0, <- Ec. exact Hlast.
Qed.

(** X7. In a returned history the record at index [i] is dated [i]
    calendar months after the start date, on the same day of the month,
    and is a date of the calendar; each record's date is the month advance
    of the previous one's, 28 to 31 days later. *)
Theorem history_dates (fuel : nat) (P : params)
    (mc : nat) (h : list record) (t : Qc) :
  minimum_mortgage_repay_time_with_tracking fuel P = Return (mc, h, t) ->
  (forall i r, nth_error h i = Some r ->
     valid (r_date r) /\
     day (r_date r) = day (p_current_date P) /\
     (12 * year (r_date r) + PyDate.month (r_date r)
      = 12 * year (p_current_date P) + PyDate.month (p_current_date P)
        + Z.of_nat i)%Z) /\
  (forall i r r', nth_error h i = Some r -> nth_error h (S i) = Some r' ->
     next_month (r_date r) = Some (r_date r') /\
     (28 <= sub_days (r_date r') (r_date r) <= 31)%Z).
Proof.
  intros H. apply run_Return in H.
  destruct H as (thr & st & _ & Hv & _ & Hit & _ & -> & _).
  split.
  - apply (indexed_iterates P thr (p_current_date P)
             (fun i r => valid (r_date r) /\
                day (r_date r) = day (p_current_date P) /\
                (12 * year (r_date r) + PyDate.month (r_date r)
                 = 12 * year (p_current_date P)
                   + PyDate.month (p_current_date P) + Z.of_nat i)%Z));
      [ | exact Hit ].
    intros st0 Hit0. cbn [snapshot r_date].
    destruct (calendar_iterates _ _ _ Hv Hit0) as [Hm Hd Hv0 _]. auto.
  - apply (adjacent_iterates P thr (p_current_date P)
             (fun r r' => next_month (r_date r) = Some (r_date r') /\
                (28 <= sub_days (r_date r') (r_date r) <= 31)%Z));
      [ | exact Hit ].
    intros st0 st1 Hit0 Hb. cbn [snapshot r_date].
    destruct (calendar_iterates _ _ _ Hv Hit0) as [_ _ Hv0 _].
    apply body_Some in Hb. destruct Hb as (d & Hn & ->). cbn [current_date].
    split; [ exact Hn | ].
    rewrite (next_month_days _ _ Hv0 Hn).
    pose proof (check_date_fields_range _ _ _ Hv0) as (_ & Hm & _).
    pose proof (days_in_month_ge_28 (year (current_date st0)) _ Hm).
    pose proof (days_in_month_le_31 (year (current_date st0))
                  (PyDate.month (current_date st0))).
    lia.
Qed.

Lemma history_dates_witness :
  exists mc h t r r',
    minimum_mortgage_repay_time_with_tracking 10 small_loan = Return (mc, h, t) /\
    nth_error h 0 = Some r /\ nth_error h 1 = Some r' /\
    r_date r' = mkdate 2026 1 1 /\
    next_month (r_date r) = Some (r_date r') /\
    (28 <= sub_days (r_date r') (r_date r) <= 31)%Z.
Proof.
  eexists _, _, _, _, _.
  match goal with
  | |- ?run = Return (?mc, ?h, ?t) /\ _ =>
    assert (H : run = Return (mc, h, t)) by (vm_compute; reflexivity)
  end.
  split; [ exact H | ].
  split; [ reflexivity | ]. split; [ reflexivity | ].
  split; [ reflexivity | ].
  apply (proj2 (history_dates 10 small_loan _ _ _ H) 0%nat); reflexivity.
Defined.

(** ** How a run ends *)

Lemma days_before_month_bounds (y m : Z) :
  (1 <= m <= 12)%Z ->
  (30 * (m - 1) - 1 <= days_before_month y m <= 30 * (m - 1) + 5)%Z.
Proof.
  intros Hm. unfold days_before_month.
  generalize (is_leap y). intros leap.
  assert (Hc : (m = 1 \/ m = 2 \/ m = 3 \/ m = 4 \/ m = 5 \/ m = 6 \/ m = 7
                \/ m = 8 \/ m = 9 \/ m = 10 \/ m = 11 \/ m = 12)%Z) by lia.
  destruct Hc as [H|[H|[H|[H|[H|[H|[H|[H|[H|[H|[H|H]]]]]]]]]]]; rewrite H;
    destruct leap; vm_compute; split; discriminate.
Qed.

(** Fewer than 720 months never add up to more than [365 * 60] days. *)
Lemma elapsed_before_sixty (d d' : date) (k : Z) :
  valid d -> valid d' -> day d' = day d ->
  (12 * year d' + PyDate.month d' = 12 * year d + PyDate.month d + k)%Z ->
  (0 <= k <= 719)%Z ->
  (sub_days d' d <= 365 * 60)%Z.
Proof.
  intros Hv Hv' Hd Hm Hk.
  apply check_date_fields_range in Hv, Hv'.
  pose proof (days_before_month_bounds (year d) (PyDate.month d)) as Hb.
  pose proof (days_before_month_bounds (year d') (PyDate.month d')) as Hb'.
  unfold sub_days, toordinal, days_before_year. rewrite Hd.
  generalize dependent (days_before_month (year d) (PyDate.month d)).
  generalize dependent (days_before_month (year d') (PyDate.month d')).
  intros b' Hb' b Hb.
  assert (Hy : (year d <= year d' <= year d + 60)%Z) by lia.
  assert (Hcase : (year d' <= year d + 59
                   \/ (year d' = year d + 60 /\ PyDate.month d' < PyDate.month d))%Z)
    by lia.
  destruct Hcase as [Hc | [Hc Hlt]]; lia.
Qed.

Lemma loop_exit (P : params) (thr sd : date) (fuel : nat) :
  forall st0 st,
    loop P thr sd fuel st0 = Return st ->
    loop_cond P st = false \/ cutoff st = true.
Proof.
  induction fuel as [ | fuel IH ]; intros st0 st; cbn [loop];
    destruct (loop_cond P st0) eqn:Hcond; try discriminate;
    try (intros H; apply (f_equal (fun o => match o with Return x => x | _ => st end)) in H;
         subst st; now left).
  destruct (body P thr sd st0) as [st1 | ]; [ | discriminate ].
  destruct (cutoff st1) eqn:Hc.
  - intros H. apply (f_equal (fun o => match o with Return x => x | _ => st end)) in H.
    subst st. now right.
  - apply IH.
Qed.

(** X8. A call that returns fewer than 720 months ended on the [while]
    test: the last record's principal is at most [1e-5], at least
    [projection_years] whole 365-day years have passed since the start
    date, and not more than [365 * 60] days.  The 60-year cut is taken at
    month 720 and at no other month. *)
Theorem exit_condition (fuel : nat) (P : params)
    (mc : nat) (h : list record) (t : Qc) :
  minimum_mortgage_repay_time_with_tracking fuel P = Return (mc, h, t) ->
  exists r,
    nth_error h mc = Some r /\
    ((mc = 720%nat /\ (365 * 60 < sub_days (r_date r) (p_current_date P))%Z)
     \/ ((mc < 720)%nat /\
         (sub_days (r_date r) (p_current_date P) <= 365 * 60)%Z /\
         principal_remaining r <= lit 1 100000 /\
         projection_years P
           <= lit (sub_days (r_date r) (p_current_date P) / 365) 1)).
Proof.
  intros H. apply run_Return in H.
  destruct H as (thr & st & _ & Hv & Hl & Hit & -> & -> & _).
  pose proof (length_iterates _ _ _ _ Hit) as Hlen.
  destruct (history_last _ _ _ _ Hit) as [pre Epre].
  assert (Hpre : month_count st = length pre).
  { rewrite Epre, length_app in Hlen. cbn in Hlen. lia. }
  eexists. rewrite Hpre at 1. rewrite Epre.
  split; [ apply last_of_snoc | ]. cbn [snapshot r_date principal_remaining].
  destruct (calendar_iterates _ _ _ Hv Hit) as [Hm Hd Hvd Ht].
  destruct (months_bound_iterates _ _ _ Hv Hit) as [Hle _].
  destruct (Nat.eq_dec (month_count st) 720) as [E | Hne].
  - left. split; [ exact E | ].
    apply check_date_fields_range in Hv, Hvd.
    apply sub_days_sixty_years; lia.
  - right. split; [ lia | ].
    assert (Hdays : (sub_days (current_date st) (p_current_date P) <= 365 * 60)%Z)
      by (apply (elapsed_before_sixty _ _ (Z.of_nat (month_count st))); trivial; lia).
    split; [ exact Hdays | ].
    destruct (loop_exit _ _ _ _ _ _ Hl) as [Hcond | Hcut].
    + unfold loop_cond in Hcond. apply orb_false_iff in Hcond.
      destruct Hcond as [Hp Hy]. rewrite Ht in Hy.
      split; now apply Qclt_bool_false.
    + unfold cutoff in Hcut. rewrite Ht in Hcut. apply Z.ltb_lt in Hcut. lia.
Qed.

Lemma exit_condition_witness :
  exists mc h t,
    minimum_mortgage_repay_time_with_tracking 10 small_loan = Return (mc, h, t) /\
    exists r,
      nth_error h mc = Some r /\
      ((mc = 720%nat
        /\ (365 * 60 < sub_days (r_date r) (p_current_date small_loan))%Z)
       \/ ((mc < 720)%nat /\
           (sub_days (r_date r) (p_current_date small_loan) <= 365 * 60)%Z /\
           principal_remaining r <= lit 1 100000 /\
           projection_years small_loan
             <= lit (sub_days (r_date r) (p_current_date small_loan) / 365) 1)).
Proof.
  eexists _, _, _.
  match goal with
  | |- ?run = Return (?mc, ?h, ?t) /\ _ =>
    assert (H : run = Return (mc, h, t)) by (vm_compute; reflexivity)
  end.
  split; [ exact H | ].
  exact (exit_condition 10 small_loan _ _ _ H).
Defined.

(** X9. With nothing to repay and nothing to project (a mortgage of at
    most [1e-5], [projection_years <= 0]) the loop is not entered: the
    call returns 0 months, the initial snapshot alone and no interest,
    whatever the fuel and whatever the day of the start date, provided
    the start date and the end of the allowance window are dates. *)
Theorem nothing_to_simulate (fuel : nat) (P : params) :
  valid (p_current_date P) ->
  valid (mkdate (year (p_current_date P) + n_years_with_allowance P)
           (PyDate.month (p_current_date P)) (day (p_current_date P))) ->
  mortgage_amount P <= lit 1 100000 ->
  projection_years P <= 0 ->
  minimum_mortgage_repay_time_with_tracking fuel P
  = Return (0%nat,
            [snapshot P (p_current_date P) (mortgage_amount P) (start_saving P) 0],
            0).
Proof.
  intros Hv Hthr Hm Hp.
  unfold minimum_mortgage_repay_time_with_tracking.
  unfold new at 1. unfold valid in Hthr. cbn [year PyDate.month day] in Hthr.
  rewrite Hthr, (new_valid _ Hv).
  rewrite loop_stop; [ reflexivity | ].
  unfold loop_cond, init_state; cbn [principal time_passed_days].
  rewrite sub_days_diag. apply orb_false_iff. split.
  - destruct (Qclt_bool_spec (lit 1 100000) (mortgage_amount P))
      as [[_ H] | [-> _]]; trivial.
    exfalso. clear - H Hm. qc_lra.
  - destruct (Qclt_bool_spec (lit (0 / 365) 1) (projection_years P))
      as [[_ H] | [-> _]]; trivial.
    exfalso. change (lit (0 / 365) 1) with (Q2Qc 0) in H. clear - H Hp. qc_lra.
Qed.

Lemma nothing_to_simulate_witness :
  let P := mkparams (mkdate 2025 1 31) (lit 100 1) 0 (lit 400 1) (lit 1 10) 1
             (lit 6 100) (lit 600 1) (lit 3 100) 0 in
  minimum_mortgage_repay_time_with_tracking 0 P
  = Return (0%nat,
            [snapshot P (p_current_date P) (mortgage_amount P) (start_saving P) 0],
            0).
Proof.
  intros P. apply (nothing_to_simulate 0 P).
  - reflexivity.
  - reflexivity.
  - vm_compute. discriminate.
  - vm_compute. discriminate.
Defined.

(** ** The month advance *)

Lemma days_in_month_december (y : Z) : days_in_month y 12 = 31%Z.
Proof. reflexivity. Qed.

Lemma days_in_month_january (y : Z) : days_in_month y 1 = 31%Z.
Proof. reflexivity. Qed.

(** X10. From a date of the calendar, the month advance of the loop
    raises exactly in two cases: in December of year 9999, and when the
    next month is too short for the day; otherwise it gives the same day
    of the next month, as many days later as the month left behind has. *)
Theorem month_advance (d : date) :
  valid d ->
  (next_month d = None <->
   (PyDate.month d = 12 /\ year d = 9999)%Z
   \/ (PyDate.month d <> 12%Z
       /\ (days_in_month (year d) (PyDate.month d + 1) < day d)%Z)) /\
  (forall d', next_month d = Some d' ->
     valid d' /\ day d' = day d /\
     (12 * year d' + PyDate.month d' = 12 * year d + PyDate.month d + 1)%Z /\
     sub_days d' d = days_in_month (year d) (PyDate.month d)).
Proof.
  intros Hv. split.
  - pose proof (check_date_fields_range _ _ _ Hv) as (Hy & Hm & Hd).
    unfold next_month, replace, new.
    destruct (PyDate.month d =? 12)%Z eqn:E;
      [ apply Z.eqb_eq in E | apply Z.eqb_neq in E ].
    + rewrite E, days_in_month_december in Hd.
      destruct (check_date_fields (year d + 1) 1 (day d)) eqn:Hc.
      * apply check_date_fields_range in Hc.
        split; [ discriminate | ]. intros [[_ H] | [H _]]; lia.
      * split; [ intros _ | reflexivity ]. left. split; trivial.
        unfold check_date_fields, MINYEAR, MAXYEAR in Hc.
        rewrite days_in_month_january in Hc.
        rewrite !andb_false_iff, !Z.leb_gt in Hc. lia.
    + destruct (check_date_fields (year d) (PyDate.month d + 1) (day d)) eqn:Hc.
      * apply check_date_fields_range in Hc.
        split; [ discriminate | ]. intros [[H _] | [_ H]]; lia.
      * split; [ intros _ | reflexivity ]. right. split; trivial.
        unfold check_date_fields, MINYEAR, MAXYEAR in Hc.
        rewrite !andb_false_iff, !Z.leb_gt in Hc. lia.
  - intros d' Hn. pose proof (next_month_days _ _ Hv Hn) as Hdays.
    apply next_month_Some in Hn. destruct Hn as (Hv' & Hd & Hcase).
    repeat split; trivial. lia.
Qed.

Lemma month_advance_witness :
  next_month (mkdate 2025 1 31) = None /\
  next_month (mkdate 9999 12 1) = None /\
  (forall d', next_month (mkdate 2024 2 29) = Some d' ->
     d' = mkdate 2024 3 29 /\ sub_days d' (mkdate 2024 2 29) = 29%Z).
Proof.
  split; [ | split ].
  - apply (proj1 (month_advance (mkdate 2025 1 31) eq_refl)).
    right. split; [ discriminate | reflexivity ].
  - apply (proj1 (month_advance (mkdate 9999 12 1) eq_refl)).
    left. split; reflexivity.
  - intros d' Hn.
    destruct (proj2 (month_advance (mkdate 2024 2 29) eq_refl) d' Hn)
      as (_ & _ & _ & Hdays).
    split; [ | exact Hdays ].
    apply Some_inj. rewrite <- Hn. reflexivity.
Defined.

(** ** The capped window *)

Lemma window_closed_step (P : params) (thr sd : date) (st st' : state) :
  body P thr sd st = Some st' ->
  ltb (current_date st) thr = false -> ltb (current_date st') thr = false.
Proof.
  intros Hb Hout. apply body_Some in Hb. destruct Hb as (d & Hn & ->).
  cbn [current_date].
  destruct (ltb d thr) eqn:E; trivial.
  apply (next_month_window _ _ _ Hn) in E. congruence.
Qed.

Lemma never_before_start (P : params) (thr : date) (st : state) :
  valid (p_current_date P) ->
  iterates P thr (p_current_date P) st ->
  (n_years_with_allowance P <= 0)%Z ->
  ltb (current_date st)
      (mkdate (year (p_current_date P) + n_years_with_allowance P)
         (PyDate.month (p_current_date P)) (day (p_current_date P))) = false.
Proof.
  intros Hv Hit Hn.
  destruct (calendar_iterates _ _ _ Hv Hit) as [Hm Hd Hvd _].
  apply check_date_fields_range in Hv, Hvd.
  match goal with |- ?b = false => destruct b eqn:E end; trivial.
  apply ltb_lt in E. cbn [year PyDate.month day] in E. lia.
Qed.

(** X11. The capped window is an initial stretch of a run: a month that
    starts outside it is followed by months outside it.  With an
    allowance of 0 years (or fewer) no month of a run is inside it, and
    every month's limit is the principal left after the payment. *)
Theorem window_is_initial (P : params) (thr : date) :
  (forall sd st st',
     body P thr sd st = Some st' ->
     ltb (current_date st) thr = false -> ltb (current_date st') thr = false) /\
  (valid (p_current_date P) ->
   (n_years_with_allowance P <= 0)%Z ->
   thr = mkdate (year (p_current_date P) + n_years_with_allowance P)
           (PyDate.month (p_current_date P)) (day (p_current_date P)) ->
   forall st,
     iterates P thr (p_current_date P) st ->
     ltb (current_date st) thr = false /\
     early_repay_limit (month_body P thr st)
     = principal_after_payment (month_body P thr st)).
Proof.
  split.
  - intros sd st st'. apply window_closed_step.
  - intros Hv Hn -> st Hit.
    pose proof (never_before_start _ _ _ Hv Hit Hn) as Hout.
    split; [ exact Hout | ].
    now apply unlimited_month.
Qed.

Lemma window_is_initial_witness :
  let cd := mkdate 2025 8 1 in
  let P := scenario2 cd (lit 5000 1) (lit 3 100) 0 in
  exists st1,
    body P cd cd (init_state P cd) = Some st1 /\
    ltb (current_date st1) cd = false /\
    early_repay_limit (month_body P cd (init_state P cd))
    = principal_after_payment (month_body P cd (init_state P cd)).
Proof.
  intros cd P. eexists. split; [ vm_compute; reflexivity | ].
  destruct (window_is_initial P cd) as [Hstep Hzero]. split.
  - eapply (Hstep cd (init_state P cd)); [ vm_compute | ]; reflexivity.
  - apply (Hzero eq_refl); [ vm_compute; discriminate | reflexivity | ].
    apply iterates_init.
Defined.

(** ** Early repayment switched off *)

Lemma long_window (P : params) (st : state) :
  valid (p_current_date P) ->
  (60 < n_years_with_allowance P)%Z ->
  let thr := mkdate (year (p_current_date P) + n_years_with_allowance P)
               (PyDate.month (p_current_date P)) (day (p_current_date P)) in
  iterates P thr (p_current_date P) st -> in_window thr st.
Proof.
  intros Hv Hn thr Hit.
  destruct (calendar_iterates _ _ _ Hv Hit) as [Hm Hd Hvd _].
  destruct (months_bound_iterates _ _ _ Hv Hit) as [Hle _].
  apply check_date_fields_range in Hv, Hvd.
  unfold in_window. apply ltb_lt. cbn [thr year PyDate.month day]. lia.
Qed.

Lemma disabled_month (P : params) (thr : date) (st : state) :
  valid_params P -> month_pre P thr st -> in_window thr st ->
  early_repay_percent P = 0 ->
  monthly_payment P <= monthly_revenue P ->
  early_repay_used st = 0 ->
  let m := month_body P thr st in
  actual_early_repay m = 0 /\ m_early_repay_used m = 0 /\
  m_principal m = principal st + interest_this_month m - actual_payment m.
Proof.
  intros HP Hpre Hw Hcap Hrev Hu m.
  pose proof (month_body_post P thr HP st Hpre)
    as [_ _ Hpap Hsv _ _ _ _ _ _].
  destruct (month_body_spec P thr st)
    as [_ _ _ Eap Epap Elo _ Eused Elim Eaer _ Efp Efu].
  fold m in Hpap, Hsv, Eap, Epap, Elo, Eused, Elim, Eaer, Efp, Efu.
  unfold in_window in Hw. rewrite Hw, Hcap in Elim.
  assert (Eused0 : used_for_cap m = 0)
    by (rewrite Eused, Hu; now destruct (_ && _)%bool).
  assert (Hap : actual_payment m <= monthly_payment P).
  { rewrite Eap.
    destruct (min2_spec (monthly_payment P) (principal st + interest_this_month m))
      as [[H ->] | [H ->]]; [ clear - H; qc_lra | unfold Qcle; apply Qle_refl ]. }
  assert (Elim0 : early_repay_limit m = 0)
    by (rewrite Elim, Eused0; clear; qc_lra).
  assert (Ea0 : actual_early_repay m = 0).
  { rewrite Eaer, Elim0.
    destruct (min3_spec (leftover_after_payment m + savings_after_interest m) 0
                (principal_after_payment m))
      as [(E & H1 & _) | [(E & _) | (E & _ & H2)]]; rewrite E; trivial.
    - rewrite Elo in *. clear - H1 Hap Hrev Hsv. qc_lra.
    - clear - H2 Hpap. qc_lra. }
  split; [ exact Ea0 | ]. split.
  - rewrite Efu, Eused0, Ea0. clear. qc_lra.
  - rewrite Efp, Ea0, Epap. clear. qc_lra.
Qed.

Lemma disabled_iterates (P : params) (st : state) :
  valid_params P -> valid (p_current_date P) ->
  early_repay_percent P = 0 -> (60 < n_years_with_allowance P)%Z ->
  let thr := mkdate (year (p_current_date P) + n_years_with_allowance P)
               (PyDate.month (p_current_date P)) (day (p_current_date P)) in
  iterates P thr (p_current_date P) st ->
  early_repay_used st <= 0 /\
  (monthly_payment P <= monthly_revenue P -> early_repay_used st = 0).
Proof.
  intros HP Hv Hcap Hn thr. run_induction.
  - cbn [init_state early_repay_used]. split; [ | reflexivity ].
    unfold Qcle. apply Qle_refl.
  - intros st0 st' Hit [IHle IHeq] Hb.
    pose proof (long_window P st0 Hv Hn Hit) as Hw. fold thr in Hw.
    pose proof (month_pre_iterates _ _ _ _ HP Hit) as Hpre.
    apply body_Some in Hb. destruct Hb as (d & _ & ->).
    cbn [early_repay_used]. split.
    + destruct (month_body_cap P thr st0 Hw) as (_ & _ & Hu).
      rewrite Hcap in Hu. clear - Hu. qc_lra.
    + intros Hrev.
      now apply (disabled_month P thr st0 HP Hpre Hw Hcap Hrev (IHeq Hrev)).
Qed.

(** X12. With the fraction at 0 and a window longer than the 60 years a
    run can last (what the dashboard passes when early repayment is
    switched off: 0 and 100), every month of a run is inside the window
    and the running total of early repayments is never positive; when the
    revenue covers the monthly payment no early repayment is made at all,
    and the principal moves by the interest and the payment only. *)
Theorem early_repayment_disabled (P : params) (st : state) :
  valid_params P -> valid (p_current_date P) ->
  early_repay_percent P = 0 -> (60 < n_years_with_allowance P)%Z ->
  let thr := mkdate (year (p_current_date P) + n_years_with_allowance P)
               (PyDate.month (p_current_date P)) (day (p_current_date P)) in
  let m := month_body P thr st in
  iterates P thr (p_current_date P) st ->
  ltb (current_date st) thr = true /\
  early_repay_used st <= 0 /\
  (monthly_payment P <= monthly_revenue P ->
   actual_early_repay m = 0 /\
   m_principal m = principal st + interest_this_month m - actual_payment m).
Proof.
  intros HP Hv Hcap Hn thr m Hit.
  pose proof (long_window P st Hv Hn Hit) as Hw. fold thr in Hw.
  destruct (disabled_iterates P st HP Hv Hcap Hn Hit) as [Hle Heq].
  fold thr in Hit.
  split; [ exact Hw | ]. split; [ exact Hle | ].
  intros Hrev.
  destruct (disabled_month P thr st HP (month_pre_iterates _ _ _ _ HP Hit) Hw
              Hcap Hrev (Heq Hrev)) as (Ea & _ & Ep).
  split; [ exact Ea | exact Ep ].
Qed.

Lemma scenario1_valid (cd : date) (s : Qc) :
  0 <= s -> valid_params (scenario1 cd s).
Proof. intros Hs. constructor; trivial; vm_compute; discriminate. Qed.

Lemma early_repayment_disabled_witness :
  let P := scenario1 (mkdate 2025 8 1) (lit 5000 1) in
  let thr := mkdate 2125 8 1 in
  let m := month_body P thr (init_state P (mkdate 2025 8 1)) in
  actual_early_repay m = 0 /\
  m_principal m
  = principal (init_state P (mkdate 2025 8 1)) + interest_this_month m
    - actual_payment m.
Proof.
  intros P thr m.
  destruct (early_repayment_disabled P (init_state P (mkdate 2025 8 1)))
    as (_ & _ & H).
  - apply scenario1_valid. vm_compute. discriminate.
  - reflexivity.
  - reflexivity.
  - reflexivity.
  - apply (iterates_init P thr (mkdate 2025 8 1)).
  - apply H. vm_compute. discriminate.
Defined.

(** ** The dashboard *)

Lemma Qc_div100_nonneg (r : Qc) : 0 <= r -> 0 <= r / lit 100 1.
Proof. intros. qc2q. apply Qle_shift_div_l; lra. Qed.

(** A safe start date makes the call return. *)
Lemma run_returns (P : params) :
  safe_start P ->
  exists mc h t,
    minimum_mortgage_repay_time_with_tracking 720 P = Return (mc, h, t).
Proof.
  intros HS. pose proof HS as [Hv Hday H60 Hall].
  unfold minimum_mortgage_repay_time_with_tracking, new.
  pose proof (check_date_fields_range _ _ _ Hv) as Hr.
  unfold MINYEAR, MAXYEAR in Hall.
  rewrite check_date_fields_day_28 by lia.
  unfold valid in Hv. rewrite Hv.
  replace (mkdate (year (p_current_date P)) (PyDate.month (p_current_date P))
             (day (p_current_date P))) with (p_current_date P)
    by now destruct (p_current_date P).
  match goal with
  | |- context [loop P ?thr _ _ _] =>
    destruct (loop_returns P thr 720 HS _ (iterates_init P thr _)
                (cutoff_init P _ eq_refl)) as [st ->]; [ cbn; lia | ]
  end.
  eauto.
Qed.

(** X13. The dashboard stops without simulating when the chosen day is
    not the first of a month.  Otherwise, with the sliders inside their
    bounds, non-negative amounts and a start year up to 9899, it calls the
    simulator with parameters that meet its preconditions (fraction 0 and
    a 100-year window when early repayment is off, fraction 1 and no
    window when it is unlimited), and the call returns: the dashboard
    never passes a start date that makes the simulator raise. *)
Theorem dashboard_call (u : ui_inputs) :
  slider_ranges u ->
  valid (start_date_input u) ->
  (year (start_date_input u) + 100 <= 9999)%Z ->
  0 <= mortgage_amount_ u -> 0 <= monthly_payment_ u ->
  0 <= monthly_revenue_ u -> 0 <= start_saving_ u ->
  (day (start_date_input u) <> 1%Z -> ui_params u = None) /\
  (day (start_date_input u) = 1%Z ->
   exists P,
     ui_params u = Some P /\
     valid_params P /\
     (early_repay_enabled u = false ->
      early_repay_percent P = 0 /\ n_years_with_allowance P = 100%Z) /\
     (early_repay_enabled u = true -> unlimited_repay_from_start u = true ->
      early_repay_percent P = 1 /\ n_years_with_allowance P = 0%Z) /\
     exists mc h t,
       minimum_mortgage_repay_time_with_tracking 720 P = Return (mc, h, t)).
Proof.
  intros [[Hp0 Hp1] Hy [Hm0 _] [Hs0 _] [Hj0 _]] Hv Hyear Hma Hmp Hmr Hss.
  pose proof (check_date_fields_range _ _ _ Hv) as Hr.
  split.
  - intros Hd. unfold ui_params.
    apply Z.eqb_neq in Hd. now rewrite Hd.
  - intros Hd. unfold ui_params. rewrite Hd. cbn [Z.eqb Pos.eqb negb].
    destruct (early_repay_enabled u); cbn [negb];
      [ destruct (unlimited_repay_from_start u) | ];
      (eexists; split; [ reflexivity | ]);
      (split; [ constructor;
                cbn [start_saving mortgage_amount monthly_payment
                     monthly_revenue mortgage_interest_rate
                     savings_interest_rate early_repay_percent
                     n_years_with_allowance projection_years];
                first [ assumption | now apply Qc_div100_nonneg
                      | now apply lit_nonneg | lia
                      | vm_compute; discriminate ] | ]);
      (split; [ first [ discriminate | intros _; split; reflexivity ] | ]);
      (split; [ first [ discriminate | intros _; discriminate
                      | intros _ _; split; reflexivity ] | ]);
      apply run_returns; constructor;
        cbn [p_current_date n_years_with_allowance]; unfold MINYEAR, MAXYEAR;
        trivial; lia.
Qed.

Lemma default_inputs_checked :
  slider_ranges default_inputs /\
  0 <= mortgage_amount_ default_inputs /\ 0 <= monthly_payment_ default_inputs /\
  0 <= monthly_revenue_ default_inputs /\ 0 <= start_saving_ default_inputs.
Proof.
  repeat split; vm_compute; discriminate.
Qed.

Lemma dashboard_call_witness :
  exists P,
    ui_params default_inputs = Some P /\
    early_repay_percent P = 0 /\ n_years_with_allowance P = 100%Z /\
    exists mc h t,
      minimum_mortgage_repay_time_with_tracking 720 P = Return (mc, h, t).
Proof.
  destruct default_inputs_checked as (Hs & Ha & Hp & Hr & Hv).
  assert (Hy : (year (start_date_input default_inputs) + 100 <= 9999)%Z)
    by (vm_compute; discriminate).
  destruct (dashboard_call default_inputs Hs eq_refl Hy Ha Hp Hr Hv) as [_ H].
  destruct (H eq_refl) as (P & HP & _ & Hoff & _ & Hret).
  exists P. destruct (Hoff eq_refl) as [E1 E2]. auto.
Defined.
